(** * NowTVIE: the nowtv.de extractor of youtube-dl

    A shallow embedding of [youtube_dl/extractor/nowtv.py]
    ([NowTVIE._real_extract]) and the properties of its identifier
    derivation, availability gate, stream-variant loop and result assembly.

    Python values are modelled as follows.
    - The parsed API document is a [json] value: what [json.loads] can return.
      Python's [None] is [JNull]; a [dict] is a [gmap string json].
    - A raised exception is the [Err] side of [result]; the code has no
      [try], so the first exception ends the extraction.
    - A string is a [string]; each element stands for one character. *)

From Stdlib Require Import ZArith Ascii String Floats.PrimFloat.
From stdpp Require Import gmap strings list fin_maps pretty sorting.

Set Warnings "-register-all".

(** ** Exceptions and the result monad *)

Inductive exn : Type :=
| ExtractorError (msg : string) (expected : bool)
| KeyError (key : string)
| TypeError
| ValueError
| AttributeError
| IndexError
| TransportError (msg : string).

Inductive result (A : Type) : Type :=
| Ok (a : A)
| Err (e : exn).
Arguments Ok {A} a.
Arguments Err {A} e.

#[global] Instance result_ret : MRet result := λ A a, Ok a.
#[global] Instance result_bind : MBind result := λ A B f m,
  match m with
  | Ok a => f a
  | Err e => Err e
  end.

(** An error the user is meant to see ([ExtractorError(..., expected=True)]);
    every other exception is a generic, non-expected failure. *)
Definition is_expected (e : exn) : bool :=
  match e with
  | ExtractorError _ expected => expected
  | _ => false
  end.

Definition fails {A} (r : result A) : Prop := ∃ e, r = Err e.

Definition fails_unexpectedly {A} (r : result A) : Prop :=
  ∃ e, r = Err e ∧ is_expected e = false.

(** ** Parsed JSON documents *)

Inductive json : Type :=
| JNull
| JBool (b : bool)
| JInt (z : Z)
| JFloat (f : float)
| JStr (s : string)
| JArr (l : list json)
| JObj (m : gmap string json).

(** Python truth value: [bool(v)], as tested by [if], [not] and [or]. *)
Definition truthy (v : json) : bool :=
  match v with
  | JNull => false
  | JBool b => b
  | JInt z => negb (z =? 0)%Z
  | JFloat f => negb (PrimFloat.eqb f 0%float)
  | JStr s => negb (String.eqb s "")
  | JArr l => negb (Nat.eqb (length l) 0)
  | JObj m => negb (bool_decide (m = ∅))
  end.

(** [v[key]] with a string key: only a dict can be subscripted by a string. *)
Definition getitem (v : json) (key : string) : result json :=
  match v with
  | JObj m =>
      match m !! key with
      | Some x => Ok x
      | None => Err (KeyError key)
      end
  | _ => Err TypeError
  end.

(** [v.get(key, dflt)]: the method exists on dicts only. *)
Definition dict_get (v : json) (key : string) (dflt : json) : result json :=
  match v with
  | JObj m => Ok (default dflt (m !! key))
  | _ => Err AttributeError
  end.

Fixpoint chars (s : string) : list json :=
  match s with
  | EmptyString => []
  | String c r => JStr (String c EmptyString) :: chars r
  end.

(** [for item in v]: a list yields its elements, a dict its keys, a string
    its characters; nothing else can be iterated. *)
Definition iter (v : json) : result (list json) :=
  match v with
  | JArr l => Ok l
  | JObj m => Ok (JStr <$> (map_to_list m).*1)
  | JStr s => Ok (chars s)
  | _ => Err TypeError
  end.

(** ** String operations of the Python runtime *)

Fixpoint has_char (c : ascii) (s : string) : bool :=
  match s with
  | EmptyString => false
  | String d r => Ascii.eqb d c || has_char c r
  end.

(** [s.split(sep)] for a one-character separator. *)
Fixpoint split (sep : ascii) (s : string) : list string :=
  match s with
  | EmptyString => [EmptyString]
  | String c r =>
      if Ascii.eqb c sep then EmptyString :: split sep r
      else match split sep r with
           | seg :: segs => String c seg :: segs
           | [] => [String c EmptyString]
           end
  end.

(** [s.split(sep, 1)]: at most one cut, at the first separator. *)
Fixpoint split1 (sep : ascii) (s : string) : list string :=
  match s with
  | EmptyString => [EmptyString]
  | String c r =>
      if Ascii.eqb c sep then [EmptyString; r]
      else match split1 sep r with
           | seg :: rest => String c seg :: rest
           | [] => [String c EmptyString]
           end
  end.

(** [sep.join(l)]. *)
Fixpoint join (sep : string) (l : list string) : string :=
  match l with
  | [] => ""
  | [s] => s
  | s :: r => s +:+ sep +:+ join sep r
  end.

(** [l[0]] and [l[-1]]. *)
Definition first_item {A} (l : list A) : result A :=
  match l with
  | x :: _ => Ok x
  | [] => Err IndexError
  end.

Definition last_item {A} (l : list A) : result A :=
  match last l with
  | Some x => Ok x
  | None => Err IndexError
  end.

(** [a, b = l]: unpacking into two names needs exactly two values. *)
Definition unpack2 {A} (l : list A) : result (A * A) :=
  match l with
  | [a; b] => Ok (a, b)
  | _ => Err ValueError
  end.

(** ** Identifier derivation (nowtv.py, lines 140-142) *)

Definition derive_display_id (display_id : string) : result string :=
  let display_id_split := split "/" display_id in
  if (2 <? String.length display_id)%nat then
    a ← first_item display_id_split;
    b ← last_item display_id_split;
    Ok (join "/" [a; b])
  else Ok display_id.

(** ** Helpers of [youtube_dl.utils] used by the extractor *)

Fixpoint strip_prefix (start s : string) : option string :=
  match start with
  | EmptyString => Some s
  | String c r =>
      match s with
      | EmptyString => None
      | String d t => if Ascii.eqb c d then strip_prefix r t else None
      end
  end.

(** [s[len(start):]] when [s] starts with [start], and [s] otherwise. *)
Definition remove_prefix (start s : string) : string :=
  default s (strip_prefix start s).
Arguments remove_prefix : simpl never.

(** Modelled from the spec: [remove_start] of youtube_dl/utils.py, which is
    not among the sources: "Strip a single leading `/` from the path if
    present". The prefix is removed once when the string starts with it and
    the string is returned as it is otherwise; a value that is not a string
    has no string methods. *)
Definition remove_start (v : json) (start : string) : result string :=
  match v with
  | JStr s => Ok (remove_prefix start s)
  | _ => Err AttributeError
  end.

Fixpoint parse_digits (s : string) (acc : Z) : option Z :=
  match s with
  | EmptyString => Some acc
  | String c r =>
      let n := nat_of_ascii c in
      if (48 <=? n)%nat && (n <=? 57)%nat
      then parse_digits r (10 * acc + Z.of_nat (n - 48))
      else None
  end.

Definition parse_int (s : string) : option Z :=
  match s with
  | EmptyString => None
  | String "-" EmptyString => None
  | String "-" r => Z.opp <$> parse_digits r 0
  | _ => parse_digits s 0
  end.

(** Modelled from the spec: [int_or_none] of youtube_dl/utils.py, which is
    not among the sources: "bitrate parsed as an optional integer from the
    descriptor's bitrate field (missing/unparseable → absent, not zero)". An
    integer is itself, a string of decimal digits is the number it writes,
    and a missing value ([None]) or anything else gives [None]. *)
Definition int_or_none (v : json) : option Z :=
  match v with
  | JInt z => Some z
  | JStr s => parse_int s
  | _ => None
  end.

(** ** Output records *)

(** One entry of [formats]: the dict built at lines 165-173. *)
Module Fmt.
Record t : Type := mk {
  url : string;
  app : string;
  play_path : string;
  ext : string;
  page_url : string;
  player_url : string;
  tbr : option Z;
}.
End Fmt.

(** The dict returned at lines 184-193. *)
Module Info.
Record t : Type := mk {
  id : string;
  display_id : string;
  title : json;
  description : json;
  thumbnail : json;
  timestamp : option Z;
  duration : option Z;
  formats : list Fmt.t;
}.
End Info.

(** ** The extractor *)

Definition geo_message (video_id : string) : string :=
  "Video " +:+ video_id +:+
  " is not available from your location due to geo restriction".

Definition paywall_message (video_id : string) : string :=
  "Video " +:+ video_id +:+ " is not available for free".

Definition api_url (display_id : string) : string :=
  "https://api.nowtv.de/v3/movies/" +:+ display_id +:+
  "?fields=id,title,free,geoblocked,articleLong,articleShort,broadcastStartDate,seoUrl,duration,format,files".

(** Lines 151-158: the checks made when [files] is falsy. *)
Definition availability_gate (info files : json) (video_id : string) : result unit :=
  if negb (truthy files) then
    geoblocked ← dict_get info "geoblocked" (JBool false);
    if truthy geoblocked then Err (ExtractorError (geo_message video_id) true)
    else
      free ← dict_get info "free" (JBool true);
      if negb (truthy free)
      then Err (ExtractorError (paywall_message video_id) true)
      else Ok ()
  else Ok ().

(** Line 177: [info.get('articleLong') or info.get('articleShort')]. *)
Definition description_of (info : json) : result json :=
  long ← dict_get info "articleLong" JNull;
  if truthy long then Ok long else dict_get info "articleShort" JNull.

(** Lines 181-182. *)
Definition thumbnail_of (info : json) : result json :=
  f ← dict_get info "format" (JObj ∅);
  image ← dict_get f "defaultImage169Format" JNull;
  if truthy image then Ok image else dict_get f "defaultImage169Logo" JNull.

(** The path once [remove_start(path, '/')] has run. *)
Definition strip_slash (p : string) : string := remove_prefix "/" p.

(** The variant built at lines 165-173 for a path cut into [app] and
    [play_path]. *)
Definition variant (app play_path : string) (bitrate : json) : Fmt.t :=
  Fmt.mk "rtmpe://fms.rtl.de" app ("mp4:" +:+ play_path) "flv"
    "http://rtlnow.rtl.de" "http://cdn.static-fra.de/now/vodplayer.swf"
    (int_or_none bitrate).

(** ** Sample collaborators and payloads, for the worked examples *)

(** Modelled from the spec: [_match_id] of the host framework, which is not
    among the sources: "raw path segment captured from the URL pattern
    between the channel segment and the trailing `player`/`preview`
    segment". For a URL [scheme://host/channel/slug/player] these are the
    segments after the first four and before the last one. *)
Definition sample_match_id (url : string) : string :=
  join "/" (removelast (drop 4 (split "/" url))).

(** Modelled from the spec: [compat_str] of youtube_dl/compat.py, which is
    not among the sources: the text of the "numeric id". An integer is
    written in decimal and a string is itself; the text of other values is
    not used by the examples. *)
Definition sample_compat_str (v : json) : string :=
  match v with
  | JInt z => pretty z
  | JStr s => s
  | _ => ""
  end.

(** Modelled from the spec: [determine_ext] of youtube_dl/utils.py, which is
    not among the sources: "Determine its extension from the path". The
    extension of a string is what follows its last '.'. *)
Definition sample_determine_ext (v : json) : result string :=
  match v with
  | JStr p => Ok (default "" (last (split "." p)))
  | _ => Err AttributeError
  end.

(** Modelled from the spec: the format ranking of the host framework, which
    is not among the sources: "by bitrate ascending, with missing bitrate
    sorting as lowest / least preferred". *)
Definition tbr_le (f g : Fmt.t) : Prop :=
  match Fmt.tbr f, Fmt.tbr g with
  | None, _ => True
  | Some _, None => False
  | Some a, Some b => (a ≤ b)%Z
  end.

#[global] Instance tbr_le_dec f g : Decision (tbr_le f g).
Proof. unfold tbr_le. destruct (Fmt.tbr f), (Fmt.tbr g); apply _. Defined.

Definition sample_sort_formats (formats : list Fmt.t) : result (list Fmt.t) :=
  Ok (merge_sort tbr_le formats).

(** Stand-ins for [parse_iso8601] and [parse_duration] of
    youtube_dl/utils.py, which are not among the sources and on which no
    property below depends: no date is read, and a duration is read when it
    is written as plain seconds. *)
Definition sample_parse_iso8601 (v : json) (delimiter : string) : option Z := None.

Definition sample_parse_duration (v : json) : option Z := int_or_none v.

Definition sample_descriptor (path : string) (bitrate : json) : gmap string json :=
  <["path" := JStr path]> (<["bitrate" := bitrate]> ∅).

Definition sample_items : list json := [
  JObj (sample_descriptor "/abr/videos/bauer/1500/folge.f4v" (JInt 1500));
  JObj (sample_descriptor "/abr/videos/bauer/folge.mp4" (JInt 2000));
  JObj (sample_descriptor "/abr/videos/bauer/600/folge.f4v" (JStr "600"));
  JObj (sample_descriptor "abr/videos/bauer/folge.f4v" JNull) ].

Definition sample_files : json := JObj {[ "items" := JArr sample_items ]}.

Definition sample_info (files : option json) : gmap string json :=
  let base : gmap string json :=
    <["id" := JInt 203519]>
    (<["title" := JStr "Die neuen Bauern und eine Hochzeit"]>
    (<["articleLong" := JStr "long text"]>
    (<["articleShort" := JStr "short text"]>
    (<["duration" := JStr "2786"]>
    (<["format" := JObj {[ "defaultImage169Logo" := JStr "http://img/logo.jpg" ]}]>
     ∅))))) in
  match files with
  | Some f => <["files" := f]> base
  | None => base
  end.

Definition sample_url : string :=
  "http://www.nowtv.de/rtl/bauer-sucht-frau/die-neuen-bauern-und-eine-hochzeit/player".

Definition sample_display_id : string :=
  "bauer-sucht-frau/die-neuen-bauern-und-eine-hochzeit".

(** A network that answers every request with the same document. *)
Definition sample_net (info : json) (url display_id : string) : result json :=
  Ok info.

(** ** The URL pattern (line 17) *)

(** The constructs of Python's [re] syntax that [_VALID_URL] is written
    with. A non-capturing group [(?:...)] is the grouping of the tree and
    [\.] is a literal dot. *)
Inductive regex : Type :=
| Lit (s : string)
| Seq (r1 r2 : regex)
| Alt (r1 r2 : regex)
| Opt (r : regex)
| IdDots.

(** [a|b|...] over literals. *)
Fixpoint alternatives (first : string) (others : list string) : regex :=
  match others with
  | [] => Lit first
  | next :: others => Alt (Lit first) (alternatives next others)
  end.

Definition tlds : list string := ["de"; "at"; "ch"].

Definition channels : list string :=
  ["rtl"; "rtl2"; "rtlnitro"; "superrtl"; "ntv"; "vox"].

Definition kinds : list string := ["player"; "preview"].

(** [https?://(?:www\.)?nowtv\.(?:de|at|ch)/(?:rtl|rtl2|rtlnitro|superrtl|ntv|vox)/(?P<id>.+?)/(?:player|preview)] *)
Definition _VALID_URL : regex :=
  Seq (Lit "http") (Seq (Opt (Lit "s")) (Seq (Lit "://")
  (Seq (Opt (Lit "www.")) (Seq (Lit "nowtv.")
  (Seq (alternatives "de" ["at"; "ch"]) (Seq (Lit "/")
  (Seq (alternatives "rtl" ["rtl2"; "rtlnitro"; "superrtl"; "ntv"; "vox"])
  (Seq (Lit "/")
  (Seq IdDots
  (Seq (Lit "/") (alternatives "player" ["preview"]))))))))))).

Definition newline : ascii := "010"%char.

(** [(?P<id>.+?)] by backtracking: one more character that is not a newline
    is taken, the rest of the pattern is tried, and on its failure the group
    is extended. [taken] is the text of the group so far. *)
Fixpoint lazy_dots (k : string → option string → option (option string))
    (taken s : string) : option (option string) :=
  match s with
  | EmptyString => None
  | String c r =>
      if Ascii.eqb c newline then None
      else
        let taken := taken +:+ String c EmptyString in
        match k r (Some taken) with
        | Some m => Some m
        | None => lazy_dots k taken r
        end
  end.

(** The backtracking matcher of [re]: [r] is matched at the start of [s] and
    [k] is the rest of the pattern, given what is left of [s] and the text
    of the group [id] so far. An alternation tries its branches from left to
    right and [?] tries its operand first. *)
Fixpoint rmatch (r : regex) (s : string) (id : option string)
    (k : string → option string → option (option string))
    : option (option string) :=
  match r with
  | Lit l =>
      match strip_prefix l s with
      | Some rest => k rest id
      | None => None
      end
  | Seq r1 r2 => rmatch r1 s id (λ rest id, rmatch r2 rest id k)
  | Alt r1 r2 =>
      match rmatch r1 s id k with
      | Some m => Some m
      | None => rmatch r2 s id k
      end
  | Opt r1 =>
      match rmatch r1 s id k with
      | Some m => Some m
      | None => k s id
      end
  | IdDots => lazy_dots k EmptyString s
  end.

(** [re.match(_VALID_URL, url)], reduced to the group [id] of the match:
    [None] when the URL does not match. The match is anchored at the start
    of the URL only. *)
Definition valid_url_match (url : string) : option (option string) :=
  rmatch _VALID_URL url None (λ _ id, Some id).

(** Modelled from the spec: [_match_id] of the host framework, which is not
    among the sources: the "raw path segment captured from the URL pattern
    between the channel segment and the trailing `player`/`preview`
    segment", that is the group [id] of the match of [_VALID_URL]; the URLs
    handed to the extractor are those the pattern matches, and the empty
    string stands for no capture. *)
Definition valid_url_id (url : string) : string :=
  match valid_url_match url with
  | Some (Some id) => id
  | _ => EmptyString
  end.

Definition starts_with (p s : string) : bool :=
  if strip_prefix p s is Some _ then true else false.

(** A segment of a slug: no '/' and no newline in it. *)
Definition is_segment (s : string) : Prop :=
  has_char "/" s = false ∧ has_char newline s = false.

(** What follows the group [id] in the pattern matches at the start of [s]. *)
Definition stops (s : string) : bool :=
  starts_with "/player" s || starts_with "/preview" s.

(** The group holds [taken]: the rest of the pattern is tried at [s] and,
    on its failure, the group is extended. *)
Definition dots_from (k : string → option string → option (option string))
    (taken s : string) : option (option string) :=
  match k s (Some taken) with
  | Some m => Some m
  | None => lazy_dots k taken s
  end.

(** The segments of a slug after its first one, each behind its '/'. *)
Fixpoint slash_each (segs : list string) : string :=
  match segs with
  | [] => EmptyString
  | seg :: segs => "/" +:+ seg +:+ slash_each segs
  end.

Section NowTVIE.
(** The helpers of the host framework and of [utils]/[compat] that are not
    among the sources are parameters: what is proved holds for each of
    their implementations. [_match_id] gives the [id] group of [_VALID_URL]
    for a URL the dispatcher has matched; the two parsers return [None] on
    what they cannot read. *)
Variable _match_id : string → string.
Variable compat_str : json → string.
Variable determine_ext : json → result string.
Variable parse_iso8601 : json → string → option Z.
Variable parse_duration : json → option Z.
Variable _sort_formats : list Fmt.t → result (list Fmt.t).

(** The ranking only reorders the list it is given. *)
Hypothesis _sort_formats_perm :
  ∀ formats sorted, _sort_formats formats = Ok sorted → sorted ≡ₚ formats.

(** Lines 162-173: the body of the loop over [files['items']]. [continue]
    leaves [formats] as it is; otherwise one dict is appended. *)
Definition format_step (formats : list Fmt.t) (item : json) : result (list Fmt.t) :=
  path ← getitem item "path";
  extension ← determine_ext path;
  if negb (String.eqb extension "f4v") then Ok formats
  else
    path ← getitem item "path";
    stripped ← remove_start path "/";
    '(app, play_path) ← unpack2 (split1 "/" stripped);
    bitrate ← dict_get item "bitrate" JNull;
    Ok (formats ++ [Fmt.mk "rtmpe://fms.rtl.de" app ("mp4:" +:+ play_path)
                      "flv" "http://rtlnow.rtl.de"
                      "http://cdn.static-fra.de/now/vodplayer.swf"
                      (int_or_none bitrate)]).

(** Lines 160-173: [formats = []] and the [for] loop. *)
Fixpoint for_items (items : list json) (formats : list Fmt.t) : result (list Fmt.t) :=
  match items with
  | [] => Ok formats
  | item :: rest =>
      formats ← format_step formats item;
      for_items rest formats
  end.

(** Lines 148-193: everything after the download. *)
Definition extract_info (display_id : string) (info : json) : result Info.t :=
  id ← getitem info "id";
  let video_id := compat_str id in
  files ← getitem info "files";
  _ ← availability_gate info files video_id;
  items ← getitem files "items";
  items ← iter items;
  formats ← for_items items [];
  formats ← _sort_formats formats;
  title ← getitem info "title";
  description ← description_of info;
  broadcastStartDate ← dict_get info "broadcastStartDate" JNull;
  let timestamp := parse_iso8601 broadcastStartDate " " in
  duration ← dict_get info "duration" JNull;
  let duration := parse_duration duration in
  thumbnail ← thumbnail_of info;
  Ok (Info.mk video_id display_id title description thumbnail
        timestamp duration formats).

Section Fetch.
(** [self._download_json(url, display_id)]: the one read of the outside
    world. *)
Variable _download_json : string → string → result json.

(** Lines 138-193. *)
Definition _real_extract (url : string) : result Info.t :=
  let display_id := _match_id url in
  display_id ← derive_display_id display_id;
  info ← _download_json (api_url display_id) display_id;
  extract_info display_id info.

(** The download made for [url] returned the document [info]. *)
Definition fetched (url display_id : string) (info : json) : Prop :=
  derive_display_id (_match_id url) = Ok display_id ∧
  _download_json (api_url display_id) display_id = Ok info.
End Fetch.

(** A descriptor the loop body can process: a dict whose path is a string
    with an extension, an f4v path having a '/' after its first segment. *)
Definition well_formed_item (item : json) : Prop :=
  ∃ (m : gmap string json) (p extension : string),
    item = JObj m ∧ m !! "path" = Some (JStr p) ∧
    determine_ext (JStr p) = Ok extension ∧
    (extension = "f4v" → has_char "/" (strip_slash p) = true).

(** The extension the loop sees for a descriptor, when there is one. *)
Definition extension_of (item : json) : result string :=
  path ← getitem item "path"; determine_ext path.

(** ** Facts about the string operations *)

Section StringFacts.
Context (sep : ascii).

Lemma split_not_nil s : split sep s ≠ [].
Proof.
destruct s as [|c r]; simpl; [done|].
destruct (Ascii.eqb c sep); [done|].
by destruct (split sep r).
Qed.

Lemma split_no_sep s : has_char sep s = false → split sep s = [s].
Proof.
induction s as [|c r IH]; simpl; [done|].
intros [Hc Hr]%orb_false_iff. rewrite Hc, (IH Hr). done.
Qed.

Lemma split_cut s t :
has_char sep s = false →
split sep (s +:+ String sep t) = s :: split sep t.
Proof.
induction s as [|c r IH]; simpl.
- intros _. by rewrite Ascii.eqb_refl.
- intros [Hc Hr]%orb_false_iff. by rewrite Hc, (IH Hr).
Qed.

Lemma split_join segs :
segs ≠ [] →
Forall (λ s, has_char sep s = false) segs →
split sep (join (String sep EmptyString) segs) = segs.
Proof.
induction segs as [|s r IH]; [done|].
intros _ Hall. apply Forall_cons in Hall as [Hs Hr].
destruct r as [|s' r'].
- simpl. by apply split_no_sep.
- change (join (String sep EmptyString) (s :: s' :: r'))
  with (s +:+ String sep (join (String sep EmptyString) (s' :: r'))).
rewrite split_cut by done. f_equal. by apply IH.
Qed.

Lemma split_segments s :
Forall (λ seg, has_char sep seg = false) (split sep s).
Proof.
induction s as [|c r IH]; simpl.
- by constructor.
- destruct (Ascii.eqb c sep) eqn:Hc; [by constructor|].
destruct (split sep r) as [|seg segs].
+ constructor; [simpl; by rewrite Hc|constructor].
+ apply Forall_cons in IH as [Hseg Hsegs].
  constructor; [simpl; by rewrite Hc|done].
Qed.

Lemma join_split s : join (String sep EmptyString) (split sep s) = s.
Proof.
induction s as [|c r IH]; simpl; [done|].
destruct (Ascii.eqb c sep) eqn:Hc.
- apply Ascii.eqb_eq in Hc as ->.
pose proof (split_not_nil r) as Hne.
destruct (split sep r) as [|seg segs]; [done|].
change (String sep (join (String sep EmptyString) (seg :: segs)) = String sep r).
by rewrite IH.
- pose proof (split_not_nil r) as Hne.
destruct (split sep r) as [|seg segs]; [done|].
destruct segs as [|seg' segs']; simpl in *; by rewrite <- IH.
Qed.

Lemma split1_no_sep s : has_char sep s = false → split1 sep s = [s].
Proof.
induction s as [|c r IH]; simpl; [done|].
intros [Hc Hr]%orb_false_iff. by rewrite Hc, (IH Hr).
Qed.

Lemma split1_cut s t :
has_char sep s = false →
split1 sep (s +:+ String sep t) = [s; t].
Proof.
induction s as [|c r IH]; simpl.
- intros _. by rewrite Ascii.eqb_refl.
- intros [Hc Hr]%orb_false_iff. by rewrite Hc, (IH Hr).
Qed.

(** Every string is cut by [split1] in one of the two ways above. *)
Lemma split1_cases s :
(has_char sep s = false ∧ split1 sep s = [s]) ∨
(∃ a t, has_char sep a = false ∧ s = a +:+ String sep t ∧
      split1 sep s = [a; t]).
Proof.
induction s as [|c r IH]; simpl; [by left|].
destruct (Ascii.eqb c sep) eqn:Hc.
- right. exists EmptyString, r. apply Ascii.eqb_eq in Hc as ->. done.
- destruct IH as [[Hr ->]|(a & t & Ha & -> & ->)].
+ by left.
+ right. exists (String c a), t. simpl. by rewrite Hc, Ha.
Qed.
End StringFacts.

Lemma first_item_head {A} (l : list A) a : head l = Some a → first_item l = Ok a.
Proof. destruct l; simpl; [done|by intros [= ->]]. Qed.

Lemma last_item_last {A} (l : list A) b : last l = Some b → last_item l = Ok b.
Proof. unfold last_item. by intros ->. Qed.


(** Every slug is the join of its segments, so the next theorem speaks of
    every captured slug. *)
Lemma slug_segments (slug : string) :
  ∃ segs a b,
    slug = join "/" segs ∧ Forall (λ s, has_char "/" s = false) segs ∧
    head segs = Some a ∧ last segs = Some b.
Proof.
  pose proof (split_not_nil "/" slug) as Hne.
  destruct (split "/" slug) as [|a l] eqn:Hs; [done|].
  destruct (last (a :: l)) as [b|] eqn:Hl; [|by apply last_None in Hl].
  exists (a :: l), a, b. rewrite <- Hs.
  split; [by rewrite join_split|]. split; [apply split_segments|].
  by rewrite Hs.
Qed.

(** C1. For a slug whose raw character length exceeds 2 the derived display
  id is the first '/'-separated segment, a '/', and the last segment, the
  middle segments being dropped; a slug of at most 2 characters is left as
  it is. The test is on the number of characters of the slug, whatever the
  number of its segments. The slug is given by its segments: any non-empty
  list of '/'-free strings joined by '/'. *)
Theorem display_id_first_last_by_char_length (segs : list string) (a b : string) :
Forall (λ s, has_char "/" s = false) segs →
head segs = Some a →
last segs = Some b →
let slug := join "/" segs in
((2 < String.length slug)%nat → derive_display_id slug = Ok (a +:+ "/" +:+ b)) ∧
((String.length slug ≤ 2)%nat → derive_display_id slug = Ok slug).
Proof.
intros Hall Ha Hb slug. unfold derive_display_id.
assert (segs ≠ []) as Hne by (by destruct segs).
fold slug. split; intros Hlen.
- apply Nat.ltb_lt in Hlen as ->.
  unfold slug. rewrite (split_join "/" segs Hne Hall).
  by rewrite (first_item_head _ _ Ha), (last_item_last _ _ Hb).
- apply Nat.ltb_ge in Hlen as ->. done.
Qed.

(** ** The result monad *)

Lemma bind_fails {A B} (f : A → result B) (m : result A) :
  fails m → fails (m ≫= f).
Proof. intros [e ->]. by exists e. Qed.

(** ** Dynamic access to the parsed document *)

(** Subscripting a falsy value with a string always raises: an empty dict
    has no such key and nothing else takes a string subscript. *)
Lemma getitem_falsy (v : json) (key : string) :
  truthy v = false →
  getitem v key = Err (if v is JObj _ then KeyError key else TypeError).
Proof.
  destruct v; simpl; try done.
  intros H%negb_false_iff. apply bool_decide_eq_true in H as ->.
  by rewrite lookup_empty.
Qed.

(** ** From the URL to the document *)

Lemma _real_extract_fetched net url display_id info :
  fetched net url display_id info →
  _real_extract net url = extract_info display_id info.
Proof. intros [Hd Hnet]. unfold _real_extract. by rewrite Hd; simpl; rewrite Hnet. Qed.

(** ** The availability gate *)

Lemma availability_gate_truthy info files video_id :
  truthy files = true → availability_gate info files video_id = Ok ().
Proof. unfold availability_gate. by intros ->. Qed.

Lemma availability_gate_falsy (m : gmap string json) files video_id :
  truthy files = false →
  availability_gate (JObj m) files video_id =
    if truthy (default (JBool false) (m !! "geoblocked"))
    then Err (ExtractorError (geo_message video_id) true)
    else if truthy (default (JBool true) (m !! "free")) then Ok ()
    else Err (ExtractorError (paywall_message video_id) true).
Proof.
  unfold availability_gate. intros ->. simpl.
  destruct (truthy (default (JBool false) (m !! "geoblocked"))); [done|].
  by destruct (truthy (default (JBool true) (m !! "free"))).
Qed.

(** C2. When the files collection of the document is empty (present and
    falsy), the extraction fails with the expected geo-restriction error,
    whose message carries the video id, if geoblocked is true, whatever the
    value of free; otherwise (geoblocked absent or falsy) it fails with the
    expected paywall error if free is false. The geoblock test comes first,
    so with geoblocked true and free false the geo-restriction error is the
    one raised. *)
Theorem geoblock_checked_before_paywall
    net url display_id (m : gmap string json) (id files : json) :
  fetched net url display_id (JObj m) →
  m !! "id" = Some id →
  m !! "files" = Some files →
  truthy files = false →
  (m !! "geoblocked" = Some (JBool true) →
     _real_extract net url =
       Err (ExtractorError
              ("Video " +:+ compat_str id +:+
               " is not available from your location due to geo restriction")
              true)) ∧
  (truthy (default (JBool false) (m !! "geoblocked")) = false →
   m !! "free" = Some (JBool false) →
     _real_extract net url =
       Err (ExtractorError
              ("Video " +:+ compat_str id +:+ " is not available for free")
              true)) ∧
  (m !! "geoblocked" = Some (JBool true) → m !! "free" = Some (JBool false) →
     _real_extract net url = Err (ExtractorError (geo_message (compat_str id)) true)).
Proof.
  intros Hfetch Hid Hfiles Hfalsy.
  rewrite (_real_extract_fetched _ _ _ _ Hfetch).
  assert (∀ w, extract_info display_id (JObj m) =
               (availability_gate (JObj m) files (compat_str id) ≫= w) →
          ∀ e, availability_gate (JObj m) files (compat_str id) = Err e →
          extract_info display_id (JObj m) = Err e) as Hgate.
  { intros w -> e ->. done. }
  assert (∃ w, extract_info display_id (JObj m) =
               (availability_gate (JObj m) files (compat_str id) ≫= w)) as [w Hw].
  { unfold extract_info. simpl. rewrite Hid, Hfiles. simpl. by eexists. }
  pose proof (availability_gate_falsy m files (compat_str id) Hfalsy) as Hg.
  split; [|split].
  - intros Hgeo. apply (Hgate w Hw). by rewrite Hg, Hgeo.
  - intros Hgeo Hfree. apply (Hgate w Hw). by rewrite Hg, Hgeo, Hfree.
  - intros Hgeo _. apply (Hgate w Hw). by rewrite Hg, Hgeo.
Qed.

(** ** Mandatory fields *)



(** C5 (amended). For a document whose files collection is empty (present
    and falsy), with geoblocked absent or falsy and free absent or truthy,
    the availability gate raises nothing. The extraction then goes on to
    read [files['items']], which raises on every falsy value: [KeyError] on
    an empty dict and [TypeError] otherwise. So the extraction fails with a
    non-expected error and returns no result. *)
Theorem empty_files_pass_the_gate_then_raise
    net url display_id (m : gmap string json) (id files : json) :
  fetched net url display_id (JObj m) →
  m !! "id" = Some id →
  m !! "files" = Some files →
  truthy files = false →
  truthy (default (JBool false) (m !! "geoblocked")) = false →
  truthy (default (JBool true) (m !! "free")) = true →
  availability_gate (JObj m) files (compat_str id) = Ok () ∧
  _real_extract net url =
    Err (if files is JObj _ then KeyError "items" else TypeError) ∧
  fails_unexpectedly (_real_extract net url).
Proof.
  intros Hfetch Hid Hfiles Hfalsy Hgeo Hfree.
  rewrite (_real_extract_fetched _ _ _ _ Hfetch).
  assert (availability_gate (JObj m) files (compat_str id) = Ok ()) as Hgate.
  { by rewrite (availability_gate_falsy _ _ _ Hfalsy), Hgeo, Hfree. }
  assert (extract_info display_id (JObj m) =
          Err (if files is JObj _ then KeyError "items" else TypeError)) as ->.
  { unfold extract_info. simpl. rewrite Hid, Hfiles. simpl.
    rewrite Hgate. simpl. by rewrite (getitem_falsy _ _ Hfalsy). }
  split; [done|]. split; [done|].
  eexists. split; [done|]. by destruct files.
Qed.

(** ** The loop over the file descriptors *)

Lemma strip_slash_leading (s : string) : strip_slash ("/" +:+ s) = s.
Proof. done. Qed.

Lemma strip_slash_other (s : string) :
  (∀ t, s ≠ "/" +:+ t) → strip_slash s = s.
Proof.
  intros Hs. destruct s as [|c r]; [done|].
  unfold strip_slash, remove_prefix.
  change (strip_prefix "/" (String c r))
    with (if Ascii.eqb "/" c then Some r else None).
  destruct (Ascii.eqb "/" c) eqn:Hc; [|done].
  apply Ascii.eqb_eq in Hc as <-. by destruct (Hs r).
Qed.

(** The loop body on a dict whose path is a string, by cases on the
    extension and on the cut of the path. *)
Lemma format_step_string_path formats (m : gmap string json) (p : string) :
  m !! "path" = Some (JStr p) →
  format_step formats (JObj m) =
    extension ← determine_ext (JStr p);
    if negb (String.eqb extension "f4v") then Ok formats
    else
      '(app, play_path) ← unpack2 (split1 "/" (strip_slash p));
      Ok (formats ++ [variant app play_path (default JNull (m !! "bitrate"))]).
Proof.
  intros Hp. unfold format_step. simpl. rewrite Hp. simpl.
  destruct (determine_ext (JStr p)) as [extension|e]; simpl; [|done].
  destruct (negb (String.eqb extension "f4v")); [done|].
  fold (strip_slash p).
  by destruct (unpack2 (split1 "/" (strip_slash p))) as [[app play_path]|e].
Qed.

(** What the body appends does not depend on what was collected before. *)
Lemma format_step_acc formats item :
  format_step formats item =
    new ← format_step [] item; Ok (formats ++ new).
Proof.
  unfold format_step.
  destruct (getitem item "path") as [path|e]; simpl; [|done].
  destruct (determine_ext path) as [extension|e]; simpl; [|done].
  destruct (negb (String.eqb extension "f4v")); simpl.
  { by rewrite app_nil_r. }
  destruct (remove_start path "/") as [stripped|e]; simpl; [|done].
  destruct (unpack2 (split1 "/" stripped)) as [[app play_path]|e]; simpl; [|done].
  by destruct (dict_get item "bitrate" JNull).
Qed.

Lemma format_step_shape item new :
  format_step [] item = Ok new →
  ∃ extension, extension_of item = Ok extension ∧
    if String.eqb extension "f4v" then length new = 1 else new = [].
Proof.
  unfold format_step, extension_of.
  destruct (getitem item "path") as [path|e]; simpl; [|done].
  destruct (determine_ext path) as [extension|e]; simpl; [|done].
  intros H. exists extension. split; [done|].
  destruct (String.eqb extension "f4v"); simpl in H.
  - destruct (remove_start path "/") as [stripped|e]; simpl in H; [|done].
    destruct (unpack2 (split1 "/" stripped)) as [[app play_path]|e];
      simpl in H; [|done].
    destruct (dict_get item "bitrate" JNull); simpl in H; [|done].
    by injection H as <-.
  - by injection H as <-.
Qed.

Lemma for_items_spec items formats built :
  for_items items formats = Ok built ↔
  ∃ per_item,
    Forall2 (λ item new, format_step [] item = Ok new) items per_item ∧
    built = formats ++ concat per_item.
Proof.
  revert formats. induction items as [|item rest IH]; intros formats; simpl.
  - split.
    + intros [= <-]. exists []. split; [constructor|]. by rewrite app_nil_r.
    + intros (per_item & Hall & ->). apply Forall2_nil_inv_l in Hall as ->.
      simpl. by rewrite app_nil_r.
  - rewrite (format_step_acc formats item). split.
    + destruct (format_step [] item) as [new|e] eqn:Hnew; simpl; [|done].
      intros (per_item & Hall & ->)%IH. exists (new :: per_item).
      split; [by constructor|]. simpl. by rewrite app_assoc.
    + intros (per_item & Hall & ->).
      apply Forall2_cons_inv_l in Hall as (new & per_rest & Hnew & Hrest & ->).
      rewrite Hnew. simpl. apply IH. exists per_rest.
      split; [done|]. simpl. by rewrite app_assoc.
Qed.

Lemma for_items_fails before item after formats :
  (∀ collected, fails (format_step collected item)) →
  fails (for_items (before ++ item :: after) formats).
Proof.
  intros Hitem. revert formats.
  induction before as [|b before IH]; intros formats; simpl.
  - by apply bind_fails.
  - destruct (format_step formats b) as [collected|e]; simpl; [apply IH|by eexists].
Qed.

Lemma well_formed_item_step item :
  well_formed_item item → ∃ new, format_step [] item = Ok new.
Proof.
  intros (m & p & extension & -> & Hp & Hext & Hslash).
  rewrite (format_step_string_path _ _ _ Hp), Hext. simpl.
  destruct (String.eqb extension "f4v") eqn:Heq; simpl; [|by eexists].
  apply String.eqb_eq in Heq.
  destruct (split1_cases "/" (strip_slash p))
    as [[Hno _]|(a & rest & _ & _ & ->)].
  - rewrite (Hslash Heq) in Hno. done.
  - simpl. by eexists.
Qed.

Lemma extract_info_loop display_id (m fm : gmap string json) items r :
  m !! "files" = Some (JObj fm) →
  fm !! "items" = Some (JArr items) →
  extract_info display_id (JObj m) = Ok r →
  ∃ built, for_items items [] = Ok built ∧ _sort_formats built = Ok (Info.formats r).
Proof.
  intros Hfiles Hitems. unfold extract_info. simpl.
  destruct (m !! "id") as [id|]; simpl; [|done].
  rewrite Hfiles. simpl.
  destruct (availability_gate _ _ _); simpl; [|done].
  rewrite Hitems. simpl.
  destruct (for_items items []) as [built|e]; simpl; [|done].
  destruct (_sort_formats built) as [sorted|e] eqn:Hsort; simpl; [|done].
  destruct (m !! "title") as [title|]; simpl; [|done].
  destruct (description_of (JObj m)) as [description|e]; simpl; [|done].
  destruct (thumbnail_of (JObj m)) as [thumbnail|e]; simpl; [|done].
  intros [= <-]. by exists built.
Qed.

(** C6 (amended). A descriptor of [files['items']] whose path has an
    extension other than 'f4v' is skipped, whatever else it holds, and
    contributes no variant to the formats. A descriptor whose extension is
    'f4v' contributes exactly one variant whenever the loop returns, which
    it does when every descriptor is well formed: a dict with a string path,
    an f4v path having a '/' after its optional leading '/'. The list the
    loop builds is then the concatenation, in order, of these contributions,
    and the formats of the result are a reordering of it. *)
Theorem only_f4v_descriptors_become_variants (items : list json) :
  (∀ formats item extension,
     extension_of item = Ok extension → extension ≠ "f4v" →
     format_step formats item = Ok formats) ∧
  (Forall well_formed_item items → ∃ built, for_items items [] = Ok built) ∧
  (∀ built, for_items items [] = Ok built →
     ∃ per_item,
       Forall2 (λ item new,
                  format_step [] item = Ok new ∧
                  ∃ extension, extension_of item = Ok extension ∧
                    if String.eqb extension "f4v"
                    then length new = 1 else new = [])
               items per_item ∧
       built = concat per_item) ∧
  (∀ display_id (m fm : gmap string json) r,
     m !! "files" = Some (JObj fm) →
     fm !! "items" = Some (JArr items) →
     extract_info display_id (JObj m) = Ok r →
     ∃ built, for_items items [] = Ok built ∧ Info.formats r ≡ₚ built).
Proof.
  split; [|split; [|split]].
  - intros formats item extension Hext Hne.
    unfold extension_of in Hext. unfold format_step.
    destruct (getitem item "path") as [path|e]; simpl in *; [|done].
    rewrite Hext. simpl.
    destruct (String.eqb extension "f4v") eqn:Heq; [|done].
    by apply String.eqb_eq in Heq.
  - intros Hall.
    assert (∃ per_item,
              Forall2 (λ item new, format_step [] item = Ok new) items per_item)
      as [per_item Hper].
    { induction Hall as [|item rest Hitem _ [per_rest IH]].
      - exists []. constructor.
      - destruct (well_formed_item_step item Hitem) as [new Hnew].
        exists (new :: per_rest). by constructor. }
    exists (concat per_item). apply for_items_spec. by exists per_item.
  - intros built (per_item & Hper & ->)%for_items_spec.
    exists per_item. split; [|done].
    eapply Forall2_impl; [exact Hper|].
    intros item new Hnew. split; [done|]. by apply format_step_shape.
  - intros display_id m fm r Hfiles Hitems Hr.
    destruct (extract_info_loop _ _ _ _ _ Hfiles Hitems Hr) as (built & Hb & Hs).
    exists built. split; [done|]. by apply _sort_formats_perm.
Qed.

(** C7. A retained f4v descriptor gives a variant whose application
    namespace is the first '/'-separated component of the path once at most
    one leading '/' is removed, whose play path is 'mp4:' followed by what
    comes after that component, whose container is 'flv', and whose bitrate
    is the descriptor's bitrate field read as an integer: absent, and not
    zero, when the field is missing or cannot be read as one. *)
Theorem f4v_variant_fields formats (m : gmap string json) (p app rest : string) :
  m !! "path" = Some (JStr p) →
  determine_ext (JStr p) = Ok "f4v" →
  p = "/" +:+ app +:+ "/" +:+ rest ∨ (p = app +:+ "/" +:+ rest ∧ app ≠ "") →
  has_char "/" app = false →
  format_step formats (JObj m) =
    Ok (formats ++
        [{| Fmt.url := "rtmpe://fms.rtl.de";
            Fmt.app := app;
            Fmt.play_path := "mp4:" +:+ rest;
            Fmt.ext := "flv";
            Fmt.page_url := "http://rtlnow.rtl.de";
            Fmt.player_url := "http://cdn.static-fra.de/now/vodplayer.swf";
            Fmt.tbr := int_or_none (default JNull (m !! "bitrate")) |}]) ∧
  (m !! "bitrate" = None →
     int_or_none (default JNull (m !! "bitrate")) = None) ∧
  (∀ z, m !! "bitrate" = Some (JInt z) →
     int_or_none (default JNull (m !! "bitrate")) = Some z) ∧
  (∀ s, m !! "bitrate" = Some (JStr s) → parse_int s = None →
     int_or_none (default JNull (m !! "bitrate")) = None).
Proof.
  intros Hp Hext Hshape Happ.
  assert (strip_slash p = app +:+ String "/" rest) as Hstrip.
  { destruct Hshape as [->|[-> Hne]].
    - apply strip_slash_leading.
    - apply strip_slash_other. intros t.
      destruct app as [|c r]; [done|].
      simpl in *. apply orb_false_iff in Happ as [Hc _].
      intros [= -> _]. by rewrite Ascii.eqb_refl in Hc. }
  split; [|split; [|split]].
  - rewrite (format_step_string_path _ _ _ Hp), Hext. simpl.
    by rewrite Hstrip, (split1_cut "/" app rest Happ).
  - by intros ->.
  - by intros z ->.
  - intros s -> Hs. simpl. exact Hs.
Qed.

(** C10. For a retained f4v descriptor the path, once at most one leading
    '/' is removed, has to contain a '/': with one the body appends a
    variant, and without one the two-name unpacking of the split raises
    [ValueError]; the descriptor is neither skipped nor turned into a
    variant, and an extraction whose items contain it returns no result. *)
Theorem f4v_path_needs_a_slash (m : gmap string json) (p : string) :
  m !! "path" = Some (JStr p) →
  determine_ext (JStr p) = Ok "f4v" →
  (has_char "/" (strip_slash p) = true →
     ∀ formats, ∃ v, format_step formats (JObj m) = Ok (formats ++ [v])) ∧
  (has_char "/" (strip_slash p) = false →
     (∀ formats, format_step formats (JObj m) = Err ValueError) ∧
     (∀ before after formats,
        fails (for_items (before ++ JObj m :: after) formats)) ∧
     (∀ display_id (info fm : gmap string json) items,
        info !! "files" = Some (JObj fm) →
        fm !! "items" = Some (JArr items) →
        JObj m ∈ items →
        fails (extract_info display_id (JObj info)))).
Proof.
  intros Hp Hext. split.
  - intros Hslash formats.
    rewrite (format_step_string_path _ _ _ Hp), Hext. simpl.
    destruct (split1_cases "/" (strip_slash p))
      as [[Hno _]|(a & rest & _ & _ & ->)].
    + by rewrite Hslash in Hno.
    + simpl. by eexists.
  - intros Hslash.
    assert (∀ formats, format_step formats (JObj m) = Err ValueError) as Hstep.
    { intros formats.
      rewrite (format_step_string_path _ _ _ Hp), Hext. simpl.
      by rewrite (split1_no_sep "/" _ Hslash). }
    assert (∀ before after formats,
              fails (for_items (before ++ JObj m :: after) formats)) as Hloop.
    { intros before after formats. apply for_items_fails.
      intros collected. rewrite Hstep. by eexists. }
    split; [done|]. split; [done|].
    intros display_id info fm items Hfiles Hitems
      (before & after & ->)%list_elem_of_split.
    destruct (extract_info display_id (JObj info)) as [r|e] eqn:Hr; [|by eexists].
    destruct (extract_info_loop _ _ _ _ _ Hfiles Hitems Hr) as (built & Hb & _).
    destruct (Hloop before after []) as [e He]. by rewrite He in Hb.
Qed.

(** ** Result assembly *)

Lemma extract_info_description display_id (m : gmap string json) r :
  extract_info display_id (JObj m) = Ok r →
  description_of (JObj m) = Ok (Info.description r).
Proof.
  unfold extract_info.
  repeat lazymatch goal with
  | |- (?x ≫= _) = Ok _ → _ =>
      lazymatch x with
      | description_of _ => fail
      | _ => destruct x; simpl; [|done]
      end
  end.
  destruct (description_of (JObj m)) as [description|e]; simpl; [|done].
  destruct (thumbnail_of (JObj m)) as [thumbnail|e]; simpl; [|done].
  by intros [= <-].
Qed.

(** C8 (amended). The description of the result is the long-form field
    when that field is present and truthy (not null, not the empty string);
    otherwise it is the short-form field, and absent ([None]) when that one
    is absent too. In particular it is the short form when the long form is
    absent and absent when both are. *)
Theorem description_long_if_nonempty_else_short display_id (m : gmap string json) :
  let long := default JNull (m !! "articleLong") in
  let short := default JNull (m !! "articleShort") in
  description_of (JObj m) = Ok (if truthy long then long else short) ∧
  (∀ r, extract_info display_id (JObj m) = Ok r →
     Info.description r = if truthy long then long else short) ∧
  (∀ l, m !! "articleLong" = Some l → truthy l = true →
     description_of (JObj m) = Ok l) ∧
  (m !! "articleLong" = None → description_of (JObj m) = Ok short) ∧
  (m !! "articleLong" = None → m !! "articleShort" = None →
     description_of (JObj m) = Ok JNull).
Proof.
  intros long short.
  assert (description_of (JObj m) = Ok (if truthy long then long else short))
    as Hd.
  { unfold description_of. simpl. fold long. by destruct (truthy long). }
  split; [done|]. split; [|split; [|split]].
  - intros r Hr%extract_info_description. rewrite Hd in Hr. by injection Hr.
  - intros l Hl Ht. rewrite Hd. unfold long. rewrite Hl. simpl. by rewrite Ht.
  - intros Hl. rewrite Hd. unfold long. by rewrite Hl.
  - intros Hl Hs. rewrite Hd. unfold long, short. by rewrite Hl, Hs.
Qed.

(** ** Further properties of the extraction *)

(** No step of the loop body raises an expected error by itself: whatever it
    raises besides what [determine_ext] raises is a [KeyError], a
    [TypeError], an [AttributeError] or a [ValueError]. *)
Lemma format_step_error formats item e :
  (∀ v e', determine_ext v = Err e' → is_expected e' = false) →
  format_step formats item = Err e → is_expected e = false.
Proof.
  intros Hext. unfold format_step.
  destruct (getitem item "path") as [path|e1] eqn:Hpath; simpl.
  2:{ intros [= <-]. destruct item; simpl in Hpath; try by injection Hpath as <-.
      destruct (m !! "path"); [done|]. by injection Hpath as <-. }
  destruct (determine_ext path) as [extension|e1] eqn:Hde; simpl.
  2:{ intros [= <-]. by apply (Hext path). }
  destruct (negb (String.eqb extension "f4v")); simpl; [done|].
  destruct (remove_start path "/") as [stripped|e1] eqn:Hrs; simpl.
  2:{ intros [= <-]. by destruct path; simpl in Hrs; try injection Hrs as <-. }
  destruct (unpack2 (split1 "/" stripped)) as [[app play_path]|e1] eqn:Hu; simpl.
  2:{ intros [= <-]. unfold unpack2 in Hu.
      by repeat case_match; simplify_eq. }
  destruct (dict_get item "bitrate" JNull) as [bitrate|e1] eqn:Hb; simpl; [done|].
  intros [= <-]. by destruct item; simpl in Hb; try injection Hb as <-.
Qed.

Lemma for_items_error items formats e :
  (∀ v e', determine_ext v = Err e' → is_expected e' = false) →
  for_items items formats = Err e → is_expected e = false.
Proof.
  intros Hext. revert formats.
  induction items as [|item rest IH]; intros formats; simpl; [done|].
  destruct (format_step formats item) as [collected|e1] eqn:Hstep; simpl.
  - apply IH.
  - intros [= <-]. by apply (format_step_error _ _ _ Hext Hstep).
Qed.

Lemma description_of_dict (m : gmap string json) :
  ∃ description, description_of (JObj m) = Ok description.
Proof.
  unfold description_of. simpl.
  destruct (truthy (default JNull (m !! "articleLong"))); by eexists.
Qed.

Lemma thumbnail_of_error info e :
  thumbnail_of info = Err e → e = AttributeError.
Proof.
  unfold thumbnail_of.
  destruct info; simpl; try by intros [= <-].
  destruct (default (JObj ∅) (m !! "format")) as [| | | | | |f];
    simpl; try by intros [= <-].
  by destruct (truthy (default JNull (f !! "defaultImage169Format"))).
Qed.

(** X4. An expected error comes from the availability gate and from nowhere
    else, as long as the collaborators raise none themselves: when the
    extraction raises one, the files value of the document is falsy, and the
    error is the geo-restriction one with geoblocked truthy, or the paywall
    one with geoblocked falsy and free falsy. *)
Theorem expected_errors_come_from_the_gate display_id info e :
  (∀ v e', determine_ext v = Err e' → is_expected e' = false) →
  (∀ l e', _sort_formats l = Err e' → is_expected e' = false) →
  extract_info display_id info = Err e →
  is_expected e = true →
  ∃ (m : gmap string json) id files,
    info = JObj m ∧ m !! "id" = Some id ∧ m !! "files" = Some files ∧
    truthy files = false ∧
    ((truthy (default (JBool false) (m !! "geoblocked")) = true ∧
      e = ExtractorError (geo_message (compat_str id)) true) ∨
     (truthy (default (JBool false) (m !! "geoblocked")) = false ∧
      truthy (default (JBool true) (m !! "free")) = false ∧
      e = ExtractorError (paywall_message (compat_str id)) true)).
Proof.
  intros Hext Hsort. unfold extract_info.
  destruct info as [| | | | | |m]; simpl; try by intros [= <-].
  destruct (m !! "id") as [id|] eqn:Hid; simpl; [|by intros [= <-]].
  destruct (m !! "files") as [files|] eqn:Hfiles; simpl; [|by intros [= <-]].
  destruct (truthy files) eqn:Htruthy.
  - rewrite (availability_gate_truthy _ _ _ Htruthy). simpl.
    destruct (getitem files "items") as [items_value|e1] eqn:Hitems; simpl.
    2:{ intros [= <-]. destruct files; simpl in Hitems;
          try by injection Hitems as <-.
        destruct (m0 !! "items"); [done|]. by injection Hitems as <-. }
    destruct (iter items_value) as [items|e1] eqn:Hiter; simpl.
    2:{ intros [= <-]. by destruct items_value; simpl in Hiter;
          try injection Hiter as <-. }
    destruct (for_items items []) as [built|e1] eqn:Hloop; simpl.
    2:{ intros [= <-] He. by rewrite (for_items_error _ _ _ Hext Hloop) in He. }
    destruct (_sort_formats built) as [sorted|e1] eqn:Hs; simpl.
    2:{ intros [= <-] He. by rewrite (Hsort _ _ Hs) in He. }
    destruct (m !! "title") as [title|]; simpl; [|by intros [= <-]].
    destruct (description_of_dict m) as [description ->]. simpl.
    destruct (thumbnail_of (JObj m)) as [thumbnail|e1] eqn:Ht; simpl; [done|].
    intros [= <-]. by rewrite (thumbnail_of_error _ _ Ht).
  - rewrite (availability_gate_falsy _ _ _ Htruthy).
    destruct (truthy (default (JBool false) (m !! "geoblocked"))) eqn:Hgeo.
    { simpl. intros [= <-] _. exists m, id, files. eauto 10. }
    destruct (truthy (default (JBool true) (m !! "free"))) eqn:Hfree.
    { simpl. rewrite (getitem_falsy _ _ Htruthy). simpl.
      intros [= <-]. by destruct files. }
    simpl. intros [= <-] _. exists m, id, files. eauto 10.
Qed.

(** X5. What the extraction does with an empty files value, whatever the
    types of the two flags: the geo-restriction error when geoblocked is
    truthy, else the paywall error when free is falsy (false, null, 0, an
    empty string), else the error of the subscript [files['items']]. It
    never returns a result. *)
Theorem empty_files_outcome display_id (m : gmap string json) (id files : json) :
  m !! "id" = Some id →
  m !! "files" = Some files →
  truthy files = false →
  extract_info display_id (JObj m) =
    Err (if truthy (default (JBool false) (m !! "geoblocked"))
         then ExtractorError (geo_message (compat_str id)) true
         else if truthy (default (JBool true) (m !! "free"))
              then (if files is JObj _ then KeyError "items" else TypeError)
              else ExtractorError (paywall_message (compat_str id)) true).
Proof.
  intros Hid Hfiles Hfalsy. unfold extract_info. simpl.
  rewrite Hid, Hfiles. simpl.
  rewrite (availability_gate_falsy _ _ _ Hfalsy).
  destruct (truthy (default (JBool false) (m !! "geoblocked"))); [done|].
  destruct (truthy (default (JBool true) (m !! "free"))); [|done].
  simpl. by rewrite (getitem_falsy _ _ Hfalsy).
Qed.

(** X6. With a non-empty files value the two flags are not looked at: the
    outcome of the extraction is the same whatever geoblocked and free are
    set to, so a geoblocked or paid video whose files are listed is
    extracted like any other. *)
Theorem flags_ignored_when_files_listed
    display_id (m : gmap string json) (files v : json) (flag : string) :
  flag = "geoblocked" ∨ flag = "free" →
  m !! "files" = Some files →
  truthy files = true →
  extract_info display_id (JObj (<[flag := v]> m)) =
  extract_info display_id (JObj m).
Proof.
  intros Hflag Hfiles Htruthy.
  assert (∀ key : string, key ≠ "geoblocked" → key ≠ "free" →
            (<[flag := v]> m) !! key = m !! key) as Hkey.
  { intros key Hg Hf. apply lookup_insert_ne. by destruct Hflag as [->| ->]. }
  unfold extract_info, description_of, thumbnail_of. simpl.
  rewrite !Hkey by done.
  destruct (m !! "id") as [id|]; simpl; [|done].
  rewrite Hfiles. simpl.
  by rewrite !(availability_gate_truthy _ _ _ Htruthy).
Qed.

Lemma for_items_well_formed items :
  Forall well_formed_item items → ∃ built, for_items items [] = Ok built.
Proof.
  intros Hall.
  assert (∃ per_item,
            Forall2 (λ item new, format_step [] item = Ok new) items per_item)
    as [per_item Hper].
  { induction Hall as [|item rest Hitem _ [per_rest IH]].
    - exists []. constructor.
    - destruct (well_formed_item_step item Hitem) as [new Hnew].
      exists (new :: per_rest). by constructor. }
  exists (concat per_item). apply for_items_spec. by exists per_item.
Qed.

(** X7. Conditions under which the extraction returns: the document has an
    id, a title and a files dict whose items are a list of well-formed
    descriptors, and its format is absent or a dict. Then the loop builds a
    list and, the ranking of that list succeeding, the result carries the
    text of the id, the display id it was given, the title as it is in the
    document, the two parsed fields and the ranked list. The flags play no
    part. *)
Theorem extract_info_returns
    display_id (m fm : gmap string json) (id title : json) (items : list json) :
  m !! "id" = Some id →
  m !! "title" = Some title →
  m !! "files" = Some (JObj fm) →
  fm !! "items" = Some (JArr items) →
  Forall well_formed_item items →
  m !! "format" = None ∨ (∃ f, m !! "format" = Some (JObj f)) →
  ∃ built, for_items items [] = Ok built ∧
    ∀ sorted, _sort_formats built = Ok sorted →
      ∃ description thumbnail,
        description_of (JObj m) = Ok description ∧
        thumbnail_of (JObj m) = Ok thumbnail ∧
        extract_info display_id (JObj m) =
          Ok {| Info.id := compat_str id;
                Info.display_id := display_id;
                Info.title := title;
                Info.description := description;
                Info.thumbnail := thumbnail;
                Info.timestamp :=
                  parse_iso8601 (default JNull (m !! "broadcastStartDate")) " ";
                Info.duration :=
                  parse_duration (default JNull (m !! "duration"));
                Info.formats := sorted |}.
Proof.
  intros Hid Htitle Hfiles Hitems Hall Hformat.
  destruct (for_items_well_formed items Hall) as [built Hbuilt].
  exists built. split; [done|]. intros sorted Hsorted.
  destruct (description_of_dict m) as [description Hd].
  assert (∃ thumbnail, thumbnail_of (JObj m) = Ok thumbnail) as [thumbnail Ht].
  { unfold thumbnail_of. simpl.
    destruct Hformat as [->|[f ->]]; simpl.
    - rewrite lookup_empty. simpl. by eexists.
    - destruct (truthy (default JNull (f !! "defaultImage169Format")));
        by eexists. }
  exists description, thumbnail. split; [done|]. split; [done|].
  assert (truthy (JObj fm) = true) as Htruthy.
  { simpl. apply negb_true_iff, bool_decide_eq_false. intros ->.
    by rewrite lookup_empty in Hitems. }
  unfold extract_info. simpl. rewrite Hid, Hfiles. simpl.
  rewrite (availability_gate_truthy _ _ _ Htruthy). simpl.
  rewrite Hitems. simpl. rewrite Hbuilt. simpl. rewrite Hsorted. simpl.
  rewrite Htitle. simpl. rewrite Hd. simpl. by rewrite Ht.
Qed.

(** X8. Where the fields of a result come from. A result is returned only
    for a document that is a dict with an id, a title and a truthy files
    value; its id is the text of the document's id, its display id the one
    handed in, its title the document's, and its timestamp and duration the
    parsers' readings of broadcastStartDate (with a space as the date/time
    delimiter) and of duration. *)
Theorem result_provenance display_id info r :
  extract_info display_id info = Ok r →
  ∃ (m : gmap string json) id title files,
    info = JObj m ∧
    m !! "id" = Some id ∧ Info.id r = compat_str id ∧
    Info.display_id r = display_id ∧
    m !! "title" = Some title ∧ Info.title r = title ∧
    m !! "files" = Some files ∧ truthy files = true ∧
    Info.timestamp r =
      parse_iso8601 (default JNull (m !! "broadcastStartDate")) " " ∧
    Info.duration r = parse_duration (default JNull (m !! "duration")).
Proof.
  unfold extract_info.
  destruct info as [| | | | | |m]; simpl; try done.
  destruct (m !! "id") as [id|] eqn:Hid; simpl; [|done].
  destruct (m !! "files") as [files|] eqn:Hfiles; simpl; [|done].
  destruct (truthy files) eqn:Htruthy.
  2:{ rewrite (availability_gate_falsy _ _ _ Htruthy).
      destruct (truthy (default (JBool false) (m !! "geoblocked"))); [done|].
      destruct (truthy (default (JBool true) (m !! "free"))); [|done].
      simpl. by rewrite (getitem_falsy _ _ Htruthy). }
  rewrite (availability_gate_truthy _ _ _ Htruthy). simpl.
  destruct (getitem files "items") as [items_value|]; simpl; [|done].
  destruct (iter items_value) as [items|]; simpl; [|done].
  destruct (for_items items []) as [built|]; simpl; [|done].
  destruct (_sort_formats built) as [sorted|]; simpl; [|done].
  destruct (m !! "title") as [title|] eqn:Htitle; simpl; [|done].
  destruct (description_of (JObj m)) as [description|]; simpl; [|done].
  destruct (thumbnail_of (JObj m)) as [thumbnail|]; simpl; [|done].
  intros [= <-]. exists m, id, title, files. simpl. eauto 12.
Qed.

(** X9. The first descriptor the loop body cannot process decides the
    outcome: with well-formed descriptors before it, the loop raises that
    descriptor's error, the descriptors after it are not looked at and
    nothing collected so far is returned. A descriptor that is not a dict
    raises [TypeError] and a dict without a path raises [KeyError]. *)
Theorem first_bad_descriptor_decides
    display_id (m fm : gmap string json) (id : json)
    (before after : list json) (item : json) :
  m !! "id" = Some id →
  m !! "files" = Some (JObj fm) →
  fm !! "items" = Some (JArr (before ++ item :: after)) →
  Forall well_formed_item before →
  (∀ e, (∀ collected, format_step collected item = Err e) →
     extract_info display_id (JObj m) = Err e) ∧
  ((∀ d, item ≠ JObj d) → extract_info display_id (JObj m) = Err TypeError) ∧
  (∀ d, item = JObj d → d !! "path" = None →
     extract_info display_id (JObj m) = Err (KeyError "path")).
Proof.
  intros Hid Hfiles Hitems Hbefore.
  assert (∀ e, (∀ collected, format_step collected item = Err e) →
            extract_info display_id (JObj m) = Err e) as Hdecides.
  { intros e Hstep.
    assert (truthy (JObj fm) = true) as Htruthy.
    { simpl. apply negb_true_iff, bool_decide_eq_false. intros ->.
      by rewrite lookup_empty in Hitems. }
    assert (∀ formats, for_items (before ++ item :: after) formats = Err e)
      as Hloop.
    { clear Hitems. induction Hbefore as [|b before Hb _ IH];
        intros formats; simpl.
      - by rewrite Hstep.
      - rewrite (format_step_acc formats b).
        destruct (well_formed_item_step b Hb) as [new ->]. simpl. apply IH. }
    unfold extract_info. simpl. rewrite Hid, Hfiles. simpl.
    rewrite (availability_gate_truthy _ _ _ Htruthy). simpl.
    rewrite Hitems. simpl. by rewrite Hloop. }
  split; [done|]. split.
  - intros Hnot. apply Hdecides. intros collected.
    unfold format_step. destruct item; try done. by destruct (Hnot m0).
  - intros d -> Hpath. apply Hdecides. intros collected.
    unfold format_step. simpl. by rewrite Hpath.
Qed.

(** X10. Every format of a result comes from an f4v descriptor of the
    document, and has the fixed endpoint, container, page and player: its
    app has no '/', and its app, a '/', and its play path without the
    'mp4:' mark make up that descriptor's path once a leading '/' is
    removed; its bitrate is the reading of that descriptor's bitrate. *)
Theorem formats_trace_back_to_f4v_descriptors
    display_id (m fm : gmap string json) (items : list json) r (f : Fmt.t) :
  m !! "files" = Some (JObj fm) →
  fm !! "items" = Some (JArr items) →
  extract_info display_id (JObj m) = Ok r →
  f ∈ Info.formats r →
  Fmt.url f = "rtmpe://fms.rtl.de" ∧ Fmt.ext f = "flv" ∧
  Fmt.page_url f = "http://rtlnow.rtl.de" ∧
  Fmt.player_url f = "http://cdn.static-fra.de/now/vodplayer.swf" ∧
  ∃ (d : gmap string json) (p rest : string),
    JObj d ∈ items ∧ d !! "path" = Some (JStr p) ∧
    determine_ext (JStr p) = Ok "f4v" ∧
    has_char "/" (Fmt.app f) = false ∧
    strip_slash p = Fmt.app f +:+ "/" +:+ rest ∧
    Fmt.play_path f = "mp4:" +:+ rest ∧
    Fmt.tbr f = int_or_none (default JNull (d !! "bitrate")).
Proof.
  intros Hfiles Hitems Hr Hf.
  destruct (extract_info_loop _ _ _ _ _ Hfiles Hitems Hr) as (built & Hbuilt & Hs).
  apply _sort_formats_perm in Hs. rewrite Hs in Hf. clear Hs Hr.
  apply for_items_spec in Hbuilt as (per_item & Hper & ->). simpl in Hf.
  apply list_elem_of_In, in_concat in Hf as (new & Hnew & Hfnew).
  apply list_elem_of_In in Hnew, Hfnew.
  apply list_elem_of_lookup in Hnew as [i Hi].
  destruct (Forall2_lookup_r _ _ _ _ _ Hper Hi) as (item & Hitem & Hstep).
  apply list_elem_of_lookup_2 in Hitem.
  destruct item as [| | | | | |d]; try done.
  destruct (d !! "path") as [path|] eqn:Hpath;
    [|unfold format_step in Hstep; simpl in Hstep; by rewrite Hpath in Hstep].
  destruct path as [| | | |p| |];
    try (unfold format_step in Hstep; simpl in Hstep; rewrite Hpath in Hstep;
         simpl in Hstep;
         destruct (determine_ext _) as [extension|]; simpl in Hstep; [|done];
         destruct (negb (String.eqb extension "f4v")); simpl in Hstep;
         [injection Hstep as <-; by apply elem_of_nil in Hfnew|done]).
  rewrite (format_step_string_path _ _ _ Hpath) in Hstep.
  destruct (determine_ext (JStr p)) as [extension|] eqn:Hext;
    simpl in Hstep; [|done].
  destruct (String.eqb extension "f4v") eqn:Heq; simpl in Hstep.
  2:{ injection Hstep as <-. by apply elem_of_nil in Hfnew. }
  apply String.eqb_eq in Heq as ->.
  destruct (split1_cases "/" (strip_slash p))
    as [[_ Hcut]|(a & rest & Ha & Hp & Hcut)];
    rewrite Hcut in Hstep; simpl in Hstep; [done|].
  injection Hstep as <-. apply list_elem_of_singleton in Hfnew as ->.
  simpl. do 4 (split; [done|]).
  exists d, p, rest. by rewrite Hp.
Qed.

Lemma extract_info_thumbnail display_id (m : gmap string json) r :
  extract_info display_id (JObj m) = Ok r →
  thumbnail_of (JObj m) = Ok (Info.thumbnail r).
Proof.
  unfold extract_info.
  repeat lazymatch goal with
  | |- (?x ≫= _) = Ok _ → _ =>
      lazymatch x with
      | thumbnail_of _ => fail
      | _ => destruct x; simpl; [|done]
      end
  end.
  destruct (thumbnail_of (JObj m)) as [thumbnail|e]; simpl; [|done].
  by intros [= <-].
Qed.

(** X13. The thumbnail of a result is the format's defaultImage169Format
    when that is truthy and its defaultImage169Logo otherwise, [None] when
    neither is there or the document has no format. A format that is
    present and not a dict (null, say) is no such fallback: [None.get]
    raises and the extraction returns no result. *)
Theorem thumbnail_from_format display_id (m : gmap string json) :
  (∀ r, extract_info display_id (JObj m) = Ok r →
     (m !! "format" = None ∧ Info.thumbnail r = JNull) ∨
     (∃ f, m !! "format" = Some (JObj f) ∧
           Info.thumbnail r =
             if truthy (default JNull (f !! "defaultImage169Format"))
             then default JNull (f !! "defaultImage169Format")
             else default JNull (f !! "defaultImage169Logo"))) ∧
  (∀ v, m !! "format" = Some v → (∀ f, v ≠ JObj f) →
     thumbnail_of (JObj m) = Err AttributeError ∧
     fails (extract_info display_id (JObj m))).
Proof.
  split.
  - intros r Hr%extract_info_thumbnail. unfold thumbnail_of in Hr.
    simpl in Hr. destruct (m !! "format") as [v|]; simpl in Hr.
    + right. destruct v as [| | | | | |f]; try done. exists f. split; [done|].
      simpl in Hr.
      destruct (truthy (default JNull (f !! "defaultImage169Format")));
        simpl in Hr; congruence.
    + left. simpl in Hr. rewrite !lookup_empty in Hr. simpl in Hr.
      split; congruence.
  - intros v Hv Hnot.
    assert (thumbnail_of (JObj m) = Err AttributeError) as Ht.
    { unfold thumbnail_of. simpl. rewrite Hv. simpl.
      destruct v; try done. by destruct (Hnot m0). }
    split; [done|].
    destruct (extract_info display_id (JObj m)) as [r|e] eqn:Hr; [|by eexists].
    apply extract_info_thumbnail in Hr. by rewrite Ht in Hr.
Qed.

Lemma for_items_not_dicts item rest formats :
  (∀ d, item ≠ JObj d) → for_items (item :: rest) formats = Err TypeError.
Proof.
  intros Hnot. simpl. unfold format_step.
  destruct item; try done. by destruct (Hnot m).
Qed.

(** X14. [files['items']] has to be a list: a number, a boolean or null
    cannot be iterated, and a non-empty string or dict is iterated as its
    characters or its keys, which are strings and take no ['path']
    subscript. In each case the extraction raises [TypeError]. *)
Theorem items_must_be_a_list
    display_id (m fm : gmap string json) (id items : json) :
  m !! "id" = Some id →
  m !! "files" = Some (JObj fm) →
  fm !! "items" = Some items →
  (∀ l, items ≠ JArr l) → items ≠ JStr "" → items ≠ JObj ∅ →
  extract_info display_id (JObj m) = Err TypeError.
Proof.
  intros Hid Hfiles Hitems Hlist Hstr Hdict.
  assert (truthy (JObj fm) = true) as Htruthy.
  { simpl. apply negb_true_iff, bool_decide_eq_false. intros ->.
    by rewrite lookup_empty in Hitems. }
  unfold extract_info. simpl. rewrite Hid, Hfiles. simpl.
  rewrite (availability_gate_truthy _ _ _ Htruthy). simpl.
  rewrite Hitems. simpl.
  destruct items as [| | | |s|l|o]; simpl; try done.
  - destruct s as [|c s]; [done|].
    change (chars (String c s)) with (JStr (String c "") :: chars s).
    by rewrite for_items_not_dicts.
  - by destruct (Hlist l).
  - destruct (map_to_list o) as [|[key v] rest] eqn:Ho.
    + apply map_to_list_empty_iff in Ho as ->. done.
    + change (JStr <$> ((key, v) :: rest).*1)
        with (JStr key :: (JStr <$> rest.*1)).
      by rewrite for_items_not_dicts.
Qed.



End NowTVIE.

(** ** Worked examples

    The extractor with the sample collaborators, on the sample URL, over a
    network that answers with the given document. *)

Local Abbreviation sample_run net url :=
  (_real_extract sample_match_id sample_compat_str sample_determine_ext
     sample_parse_iso8601 sample_parse_duration sample_sort_formats net url).

Local Abbreviation sample_extract info :=
  (sample_run (sample_net info) sample_url).

Local Abbreviation sample_fetched info :=
  (fetched sample_match_id (sample_net info) sample_url sample_display_id info).

Lemma sample_sort_formats_perm formats sorted :
  sample_sort_formats formats = Ok sorted → sorted ≡ₚ formats.
Proof. intros [= <-]. apply merge_sort_Permutation. Qed.

Lemma sample_fetched_any info : sample_fetched info.
Proof. split; by vm_compute. Qed.

Lemma display_id_first_last_by_char_length_witness :
  let segs := ["echtzeit"; "list"; "aktuell"; "schnelles-geld-am-ende-der-welt"] in
  derive_display_id "echtzeit/list/aktuell/schnelles-geld-am-ende-der-welt"
    = Ok "echtzeit/schnelles-geld-am-ende-der-welt" ∧
  derive_display_id "//" = Ok "//" ∧ split "/" "//" = [""; ""; ""].
Proof.
  intros segs. split; [|split].
  - apply (display_id_first_last_by_char_length segs
             "echtzeit" "schnelles-geld-am-ende-der-welt");
      [repeat constructor|reflexivity|reflexivity|simpl; lia].
  - apply (display_id_first_last_by_char_length [""; ""; ""] "" "");
      [repeat constructor|reflexivity|reflexivity|simpl; lia].
  - reflexivity.
Defined.

(** The general form of the next example: a slug without '/' and longer
    than 2 characters comes out as the slug, a '/', and the slug again. *)
Lemma single_segment_derivation (slug : string) :
  has_char "/" slug = false →
  derive_display_id slug =
    Ok (if (2 <? String.length slug)%nat then slug +:+ "/" +:+ slug else slug).
Proof.
  intros Hslug. unfold derive_display_id.
  rewrite (split_no_sep "/" slug Hslug).
  by destruct (2 <? String.length slug)%nat.
Qed.

(** C3. The code at the single-segment slug 'abc', captured from
    [http://www.nowtv.de/rtl/abc/player]: the slug has no '/', yet its
    length exceeds 2, so it is rewritten to 'abc/abc', which becomes the API
    key and the display id of the result. *)
Theorem single_segment_slug_is_doubled :
  sample_match_id "http://www.nowtv.de/rtl/abc/player" = "abc" ∧
  has_char "/" "abc" = false ∧
  derive_display_id "abc" = Ok "abc/abc" ∧
  ∃ r, sample_run (sample_net (JObj (sample_info (Some sample_files))))
         "http://www.nowtv.de/rtl/abc/player" = Ok r ∧
       Info.display_id r = "abc/abc".
Proof.
  split; [by vm_compute|]. split; [done|].
  split; [by rewrite single_segment_derivation|].
  eexists. split; [by vm_compute|done].
Qed.

Lemma geoblock_checked_before_paywall_witness :
  let m := <["geoblocked" := JBool true]>
             (<["free" := JBool false]> (sample_info (Some (JArr [])))) in
  sample_fetched (JObj m) ∧
  truthy (JArr []) = false ∧
  sample_extract (JObj m) =
    Err (ExtractorError
           "Video 203519 is not available from your location due to geo restriction"
           true).
Proof.
  intros m. split; [apply sample_fetched_any|]. split; [done|].
  destruct (geoblock_checked_before_paywall
              sample_match_id sample_compat_str sample_determine_ext
              sample_parse_iso8601 sample_parse_duration sample_sort_formats
              (sample_net (JObj m)) sample_url sample_display_id m
              (JInt 203519) (JArr []))
    as (Hgeo & _ & _);
    [apply sample_fetched_any|by vm_compute|by vm_compute|done|].
  rewrite Hgeo; by vm_compute.
Defined.



Lemma empty_files_pass_the_gate_then_raise_witness :
  let m := sample_info (Some (JArr [])) in
  sample_fetched (JObj m) ∧
  truthy (JArr []) = false ∧
  sample_extract (JObj m) = Err TypeError.
Proof.
  intros m. split; [apply sample_fetched_any|]. split; [done|].
  destruct (empty_files_pass_the_gate_then_raise
              sample_match_id sample_compat_str sample_determine_ext
              sample_parse_iso8601 sample_parse_duration sample_sort_formats
              (sample_net (JObj m)) sample_url sample_display_id m
              (JInt 203519) (JArr []))
    as (_ & Hraise & _);
    [apply sample_fetched_any|by vm_compute|by vm_compute|done
    |by vm_compute|by vm_compute|].
  exact Hraise.
Defined.

(** C5, as stated, fails: with an empty files collection, be it an empty
    dict or an empty list, and neither geoblocked nor free in the document,
    the extraction raises and returns no result. *)
Lemma empty_files_counterexample :
  let m := sample_info (Some (JObj ∅)) in
  let m' := sample_info (Some (JArr [])) in
  m !! "files" = Some (JObj ∅) ∧ truthy (JObj ∅) = false ∧
  m !! "geoblocked" = None ∧ m !! "free" = None ∧
  sample_extract (JObj m) = Err (KeyError "items") ∧
  sample_extract (JObj m') = Err TypeError ∧
  ¬ (∃ r, sample_extract (JObj m) = Ok r ∧ Info.formats r = []).
Proof.
  intros m m'.
  assert (sample_extract (JObj m) = Err (KeyError "items")) as He
    by (by vm_compute).
  repeat (split; [by vm_compute|]).
  intros (r & Hr & _). by rewrite He in Hr.
Qed.

Lemma sample_items_well_formed :
  Forall (well_formed_item sample_determine_ext) sample_items.
Proof.
  repeat constructor.
  - exists (sample_descriptor "/abr/videos/bauer/1500/folge.f4v" (JInt 1500)),
      "/abr/videos/bauer/1500/folge.f4v", "f4v". by vm_compute.
  - exists (sample_descriptor "/abr/videos/bauer/folge.mp4" (JInt 2000)),
      "/abr/videos/bauer/folge.mp4", "mp4". by vm_compute.
  - exists (sample_descriptor "/abr/videos/bauer/600/folge.f4v" (JStr "600")),
      "/abr/videos/bauer/600/folge.f4v", "f4v". by vm_compute.
  - exists (sample_descriptor "abr/videos/bauer/folge.f4v" JNull),
      "abr/videos/bauer/folge.f4v", "f4v". by vm_compute.
Qed.

Lemma only_f4v_descriptors_become_variants_witness :
  Forall (well_formed_item sample_determine_ext) sample_items ∧
  (∃ built, for_items sample_determine_ext sample_items [] = Ok built ∧
            length built = 3) ∧
  (∃ r built, sample_extract (JObj (sample_info (Some sample_files))) = Ok r ∧
              for_items sample_determine_ext sample_items [] = Ok built ∧
              Info.formats r ≡ₚ built).
Proof.
  destruct (only_f4v_descriptors_become_variants
              sample_compat_str sample_determine_ext
              sample_parse_iso8601 sample_parse_duration sample_sort_formats
              sample_sort_formats_perm sample_items)
    as (_ & Htotal & _ & Hout).
  split; [apply sample_items_well_formed|]. split.
  - destruct (Htotal sample_items_well_formed) as [built Hbuilt].
    exists built. split; [done|].
    vm_compute in Hbuilt. by injection Hbuilt as <-.
  - assert (∃ r,
              sample_extract (JObj (sample_info (Some sample_files))) = Ok r ∧
              extract_info sample_compat_str sample_determine_ext
                sample_parse_iso8601 sample_parse_duration sample_sort_formats
                sample_display_id (JObj (sample_info (Some sample_files))) = Ok r)
      as (r & Hrun & Hr) by (eexists; split; by vm_compute).
    destruct (Hout sample_display_id (sample_info (Some sample_files))
                {[ "items" := JArr sample_items ]} r)
      as (built & Hbuilt & Hperm); [by vm_compute|by vm_compute|exact Hr|].
    exists r, built. split; [exact Hrun|]. split; [exact Hbuilt|exact Hperm].
Defined.

(** C6, as stated, fails: the descriptor with path 'video.f4v' has the
    extension 'f4v' and no '/', the unpacking of the split raises
    [ValueError], and neither the loop nor the extraction yields a variant
    for it. *)
Lemma f4v_without_slash_counterexample :
  let item := JObj (sample_descriptor "video.f4v" (JInt 800)) in
  let fm : gmap string json := {[ "items" := JArr [item] ]} in
  extension_of sample_determine_ext item = Ok "f4v" ∧
  format_step sample_determine_ext [] item = Err ValueError ∧
  for_items sample_determine_ext [item] [] = Err ValueError ∧
  sample_extract (JObj (sample_info (Some (JObj fm)))) = Err ValueError ∧
  ¬ (∀ item', extension_of sample_determine_ext item' = Ok "f4v" →
       ∃ v, format_step sample_determine_ext [] item' = Ok [v]).
Proof.
  intros item fm.
  assert (format_step sample_determine_ext [] item = Err ValueError) as Hstep
    by (by vm_compute).
  repeat (split; [by vm_compute|]).
  intros Hclaim. destruct (Hclaim item) as [v Hv]; [by vm_compute|].
  by rewrite Hstep in Hv.
Qed.

Lemma f4v_variant_fields_witness :
  let m := sample_descriptor "/app1/sub/video.f4v" (JInt 800) in
  m !! "path" = Some (JStr "/app1/sub/video.f4v") ∧
  sample_determine_ext (JStr "/app1/sub/video.f4v") = Ok "f4v" ∧
  format_step sample_determine_ext [] (JObj m) =
    Ok [{| Fmt.url := "rtmpe://fms.rtl.de";
           Fmt.app := "app1";
           Fmt.play_path := "mp4:sub/video.f4v";
           Fmt.ext := "flv";
           Fmt.page_url := "http://rtlnow.rtl.de";
           Fmt.player_url := "http://cdn.static-fra.de/now/vodplayer.swf";
           Fmt.tbr := Some 800%Z |}].
Proof.
  intros m. split; [by vm_compute|]. split; [by vm_compute|].
  destruct (f4v_variant_fields sample_determine_ext [] m
              "/app1/sub/video.f4v" "app1" "sub/video.f4v")
    as (Hstep & _ & Hint & _);
    [by vm_compute|by vm_compute|by left|done|].
  rewrite Hstep, (Hint 800%Z); [done|by vm_compute].
Defined.

Lemma description_long_if_nonempty_else_short_witness :
  let m := sample_info (Some sample_files) in
  m !! "articleLong" = Some (JStr "long text") ∧
  ∃ r, sample_extract (JObj m) = Ok r ∧
       Info.description r = JStr "long text".
Proof.
  intros m. split; [by vm_compute|].
  assert (∃ r,
            sample_extract (JObj m) = Ok r ∧
            extract_info sample_compat_str sample_determine_ext
              sample_parse_iso8601 sample_parse_duration sample_sort_formats
              sample_display_id (JObj m) = Ok r)
    as (r & Hrun & Hr) by (eexists; split; by vm_compute).
  exists r. split; [exact Hrun|].
  destruct (description_long_if_nonempty_else_short
              sample_compat_str sample_determine_ext
              sample_parse_iso8601 sample_parse_duration sample_sort_formats
              sample_display_id m)
    as (_ & Hdesc & _).
  rewrite (Hdesc r Hr). by vm_compute.
Defined.

(** C8, as stated, fails: the sample document with an empty long-form
    description has both fields, and the description of the result is the
    short form, not the long one. *)
Lemma description_empty_long_counterexample :
  let m := <["articleLong" := JStr ""]> (sample_info (Some sample_files)) in
  m !! "articleLong" = Some (JStr "") ∧
  m !! "articleShort" = Some (JStr "short text") ∧
  description_of (JObj m) = Ok (JStr "short text") ∧
  ∃ r, sample_extract (JObj m) = Ok r ∧
       Info.description r = JStr "short text" ∧
       Some (Info.description r) ≠ m !! "articleLong".
Proof.
  intros m. repeat (split; [by vm_compute|]).
  eexists. split; [by vm_compute|]. split; [done|]. by vm_compute.
Qed.

Lemma f4v_path_needs_a_slash_witness :
  format_step sample_determine_ext []
    (JObj (sample_descriptor "video.f4v" (JInt 800))) = Err ValueError ∧
  format_step sample_determine_ext []
    (JObj (sample_descriptor "/video.f4v" (JInt 800))) = Err ValueError ∧
  strip_slash "/video.f4v" = "video.f4v".
Proof.
  split; [|split; [|done]].
  - destruct (f4v_path_needs_a_slash
                sample_compat_str sample_determine_ext
                sample_parse_iso8601 sample_parse_duration sample_sort_formats
                (sample_descriptor "video.f4v" (JInt 800)) "video.f4v")
      as (_ & Hraise); [by vm_compute|by vm_compute|].
    destruct Hraise as (Hstep & _); [by vm_compute|]. apply Hstep.
  - destruct (f4v_path_needs_a_slash
                sample_compat_str sample_determine_ext
                sample_parse_iso8601 sample_parse_duration sample_sort_formats
                (sample_descriptor "/video.f4v" (JInt 800)) "/video.f4v")
      as (_ & Hraise); [by vm_compute|by vm_compute|].
    destruct Hraise as (Hstep & _); [by vm_compute|]. apply Hstep.
Defined.

(** ** Further properties of the identifier derivation (lines 140-142) *)

Lemma split_two (a b : string) :
  has_char "/" a = false → has_char "/" b = false →
  split "/" (a +:+ "/" +:+ b) = [a; b].
Proof.
  intros Ha Hb. change (a +:+ "/" +:+ b) with (a +:+ String "/" b).
  by rewrite (split_cut "/" a b Ha), (split_no_sep "/" b Hb).
Qed.

Lemma derive_display_id_long (slug : string) :
  (2 < String.length slug)%nat →
  ∃ a b, head (split "/" slug) = Some a ∧ last (split "/" slug) = Some b ∧
         has_char "/" a = false ∧ has_char "/" b = false ∧
         derive_display_id slug = Ok (a +:+ "/" +:+ b).
Proof.
  intros Hlen. unfold derive_display_id.
  apply Nat.ltb_lt in Hlen as ->.
  pose proof (split_not_nil "/" slug) as Hne.
  pose proof (split_segments "/" slug) as Hall.
  destruct (split "/" slug) as [|a l] eqn:Hs; [done|].
  destruct (last (a :: l)) as [b|] eqn:Hl; [|by apply last_None in Hl].
  exists a, b. rewrite Forall_forall in Hall.
  split; [done|]. split; [done|].
  split; [apply Hall; by left|].
  split; [apply Hall; by apply last_Some_elem_of|].
  by rewrite (last_item_last _ _ Hl).
Qed.

(** X1. Whatever the number of segments of a slug longer than 2 characters,
    its display id has exactly two: the first and the last segment of the
    slug. *)
Theorem derived_id_has_two_segments (slug d : string) :
  (2 < String.length slug)%nat →
  derive_display_id slug = Ok d →
  ∃ a b, split "/" d = [a; b] ∧
         head (split "/" slug) = Some a ∧ last (split "/" slug) = Some b.
Proof.
  intros Hlen Hd.
  destruct (derive_display_id_long slug Hlen) as (a & b & Ha & Hb & Hna & Hnb & Hab).
  rewrite Hab in Hd. injection Hd as <-.
  exists a, b. by rewrite split_two.
Qed.

Lemma derived_id_has_two_segments_witness :
  derive_display_id "echtzeit/list/aktuell/schnelles-geld-am-ende-der-welt"
    = Ok "echtzeit/schnelles-geld-am-ende-der-welt" ∧
  split "/" "echtzeit/schnelles-geld-am-ende-der-welt"
    = ["echtzeit"; "schnelles-geld-am-ende-der-welt"].
Proof.
  destruct (derived_id_has_two_segments
              "echtzeit/list/aktuell/schnelles-geld-am-ende-der-welt"
              "echtzeit/schnelles-geld-am-ende-der-welt")
    as (a & b & Hsplit & Ha & Hb); [simpl; lia|done|].
  split; [done|]. rewrite Hsplit.
  vm_compute in Ha, Hb. by injection Ha as <-; injection Hb as <-.
Defined.

(** X2. Deriving is idempotent: a display id is its own display id, so an
    id that is fed back through the derivation is not changed again. *)
Theorem derive_display_id_idempotent (slug d : string) :
  derive_display_id slug = Ok d → derive_display_id d = Ok d.
Proof.
  intros Hd. destruct (decide (2 < String.length slug)%nat) as [Hlen|Hlen].
  - destruct (derive_display_id_long slug Hlen)
      as (a & b & _ & _ & Hna & Hnb & Hab).
    rewrite Hab in Hd. injection Hd as <-.
    unfold derive_display_id. rewrite (split_two a b Hna Hnb).
    by destruct (2 <? String.length (a +:+ "/" +:+ b))%nat.
  - unfold derive_display_id in Hd.
    apply Nat.nlt_ge, Nat.ltb_ge in Hlen. rewrite Hlen in Hd.
    injection Hd as <-. unfold derive_display_id. by rewrite Hlen.
Qed.

Lemma derive_display_id_idempotent_witness :
  derive_display_id "abc" = Ok "abc/abc" ∧
  derive_display_id "abc/abc" = Ok "abc/abc".
Proof.
  assert (derive_display_id "abc" = Ok "abc/abc") as H by done.
  split; [done|]. exact (derive_display_id_idempotent "abc" "abc/abc" H).
Defined.

(** X3. The slugs the derivation leaves as they are: those of at most 2
    characters and those of exactly two segments. Every other slug is
    changed. *)
Theorem derive_display_id_fixed_points (slug : string) :
  derive_display_id slug = Ok slug ↔
  (String.length slug ≤ 2)%nat ∨
  ∃ a b, has_char "/" a = false ∧ has_char "/" b = false ∧
         slug = a +:+ "/" +:+ b.
Proof.
  split.
  - intros Hd. destruct (decide (2 < String.length slug)%nat) as [Hlen|Hlen].
    + right. destruct (derive_display_id_long slug Hlen)
        as (a & b & _ & _ & Hna & Hnb & Hab).
      rewrite Hab in Hd. injection Hd as <-. by exists a, b.
    + left. lia.
  - intros [Hlen|(a & b & Hna & Hnb & ->)]; unfold derive_display_id.
    + apply Nat.ltb_ge in Hlen. by rewrite Hlen.
    + rewrite (split_two a b Hna Hnb).
      by destruct (2 <? String.length (a +:+ "/" +:+ b))%nat.
Qed.

Lemma derive_display_id_fixed_points_witness :
  derive_display_id "medicopter-117/angst" = Ok "medicopter-117/angst" ∧
  derive_display_id "abc" ≠ Ok "abc".
Proof.
  split.
  - apply derive_display_id_fixed_points. right.
    by exists "medicopter-117", "angst".
  - intros [Hlen|(a & b & Ha & Hb & Heq)]%derive_display_id_fixed_points.
    + simpl in Hlen. lia.
    + assert (has_char "/" "abc" = true) as Habs; [|done].
      rewrite Heq. clear Heq Ha Hb.
      induction a as [|c a IH]; simpl; [done|].
      rewrite IH. by destruct (Ascii.eqb c "/").
Defined.

(** ** The URL pattern: what it matches and what it captures *)

Lemma append_nil_r (s : string) : s +:+ "" = s.
Proof.
  induction s as [|c s IH]; [done|].
  change (String c (s +:+ "") = String c s). by rewrite IH.
Qed.

Lemma append_assoc (s t u : string) : (s +:+ t) +:+ u = s +:+ t +:+ u.
Proof.
  induction s as [|c s IH]; [done|].
  change (String c ((s +:+ t) +:+ u) = String c (s +:+ t +:+ u)).
  by rewrite IH.
Qed.

Lemma strip_prefix_append (l s : string) : strip_prefix l (l +:+ s) = Some s.
Proof.
  induction l as [|c l IH]; simpl; [done|]. by rewrite Ascii.eqb_refl.
Qed.

Lemma strip_prefix_Some (l s rest : string) :
  strip_prefix l s = Some rest → s = l +:+ rest.
Proof.
  revert s. induction l as [|c l IH]; intros s; simpl.
  - by intros [= ->].
  - destruct s as [|d s]; [done|].
    destruct (Ascii.eqb c d) eqn:Hc; [|done].
    apply Ascii.eqb_eq in Hc as ->. by intros ->%IH.
Qed.

Lemma join_slash_each (first : string) (others : list string) :
  join "/" (first :: others) = first +:+ slash_each others.
Proof.
  revert first. induction others as [|seg others IH]; intros first.
  - symmetry. apply append_nil_r.
  - change (join "/" (first :: seg :: others))
      with (first +:+ "/" +:+ join "/" (seg :: others)).
    by rewrite IH.
Qed.

Lemma lazy_dots_ext k k' taken s :
  (∀ rest id, k rest id = k' rest id) →
  lazy_dots k taken s = lazy_dots k' taken s.
Proof.
  intros Hk. revert taken. induction s as [|c s IH]; intros taken; simpl; [done|].
  destruct (Ascii.eqb c newline); [done|]. by rewrite Hk, IH.
Qed.

(** *** What a match looks like *)

Lemma lazy_dots_inv k taken s m :
  lazy_dots k taken s = Some m →
  ∃ w rest, s = w +:+ rest ∧ w ≠ "" ∧ has_char newline w = false ∧
            k rest (Some (taken +:+ w)) = Some m.
Proof.
  revert taken. induction s as [|c s IH]; intros taken; simpl; [done|].
  destruct (Ascii.eqb c newline) eqn:Hc; [done|].
  destruct (k s (Some (taken +:+ String c ""))) as [m'|] eqn:Hk.
  - intros [= ->]. exists (String c ""), s. simpl. by rewrite Hc.
  - intros (w & rest & -> & _ & Hw & Hm)%IH.
    exists (String c w), rest. simpl. rewrite Hc, Hw.
    rewrite append_assoc in Hm. done.
Qed.

Lemma rmatch_seq_lit_inv l r s id k m :
  rmatch (Seq (Lit l) r) s id k = Some m →
  ∃ rest, s = l +:+ rest ∧ rmatch r rest id k = Some m.
Proof.
  cbn [rmatch]. destruct (strip_prefix l s) as [rest|] eqn:Hl; [|done].
  apply strip_prefix_Some in Hl as ->. by exists rest.
Qed.

Lemma rmatch_seq_opt_inv l r s id k m :
  rmatch (Seq (Opt (Lit l)) r) s id k = Some m →
  ∃ o rest, o ∈ [""; l] ∧ s = o +:+ rest ∧ rmatch r rest id k = Some m.
Proof.
  assert ("" ∈ [""; l]) as Hnone by (apply elem_of_cons; by left).
  assert (l ∈ [""; l]) as Hsome
    by (apply elem_of_cons; right; apply elem_of_cons; by left).
  cbn [rmatch]. destruct (strip_prefix l s) as [rest|] eqn:Hl.
  - apply strip_prefix_Some in Hl as ->.
    destruct (rmatch r rest id k) as [m'|] eqn:Hr.
    + intros [= ->]. by exists l, rest.
    + intros Hm. by exists "", (l +:+ rest).
  - intros Hm. by exists "", s.
Qed.

Lemma rmatch_alternatives_inv first others s id k m :
  rmatch (alternatives first others) s id k = Some m →
  ∃ l rest, l ∈ first :: others ∧ s = l +:+ rest ∧ k rest id = Some m.
Proof.
  revert first. induction others as [|next others IH]; intros first;
    cbn [alternatives rmatch].
  - destruct (strip_prefix first s) as [rest|] eqn:Hl; [|done].
    apply strip_prefix_Some in Hl as ->. intros Hm.
    exists first, rest. split; [apply elem_of_cons; by left|done].
  - assert (rmatch (alternatives next others) s id k = Some m →
            ∃ l rest, l ∈ first :: next :: others ∧ s = l +:+ rest ∧
                      k rest id = Some m) as Hnext.
    { intros (l & rest' & Hin & Hs & Hm)%IH.
      exists l, rest'. split; [apply elem_of_cons; by right|done]. }
    destruct (strip_prefix first s) as [rest|] eqn:Hl; [|done].
    apply strip_prefix_Some in Hl as ->.
    destruct (k rest id) as [m'|] eqn:Hk; [|done].
    intros [= ->]. exists first, rest. split; [apply elem_of_cons; by left|done].
Qed.

Lemma rmatch_seq_alternatives_inv first others r s id k m :
  rmatch (Seq (alternatives first others) r) s id k = Some m →
  ∃ l rest, l ∈ first :: others ∧ s = l +:+ rest ∧
            rmatch r rest id k = Some m.
Proof. cbn [rmatch]. apply rmatch_alternatives_inv. Qed.

Lemma rmatch_seq_dots_inv r s id k m :
  rmatch (Seq IdDots r) s id k = Some m →
  ∃ w rest, s = w +:+ rest ∧ w ≠ "" ∧ has_char newline w = false ∧
            rmatch r rest (Some w) k = Some m.
Proof.
  cbn [rmatch]. intros (w & rest & Hs & Hw & Hnl & Hm)%lazy_dots_inv.
  by exists w, rest.
Qed.

(** X11. What a URL that the pattern matches looks like, and what is
    captured from it: 'http', an optional 's', '://', an optional 'www.',
    'nowtv.', one of the three domains, '/', one of the six channels, '/',
    the captured id, '/', 'player' or 'preview', and anything after that.
    The captured id is never empty and holds no newline. *)
Theorem valid_url_shape (url : string) (m : option string) :
  valid_url_match url = Some m →
  ∃ s www tld channel id kind rest,
    m = Some id ∧
    url = "http" +:+ s +:+ "://" +:+ www +:+ "nowtv." +:+ tld +:+ "/" +:+
          channel +:+ "/" +:+ id +:+ "/" +:+ kind +:+ rest ∧
    s ∈ [""; "s"] ∧ www ∈ [""; "www."] ∧
    tld ∈ tlds ∧ channel ∈ channels ∧ kind ∈ kinds ∧
    id ≠ "" ∧ has_char newline id = false.
Proof.
  unfold valid_url_match, _VALID_URL. intros H.
  apply rmatch_seq_lit_inv in H as (r1 & -> & H).
  apply rmatch_seq_opt_inv in H as (s & r2 & Hs & -> & H).
  apply rmatch_seq_lit_inv in H as (r3 & -> & H).
  apply rmatch_seq_opt_inv in H as (www & r4 & Hwww & -> & H).
  apply rmatch_seq_lit_inv in H as (r5 & -> & H).
  apply rmatch_seq_alternatives_inv in H as (tld & r6 & Htld & -> & H).
  apply rmatch_seq_lit_inv in H as (r7 & -> & H).
  apply rmatch_seq_alternatives_inv in H as (channel & r8 & Hchannel & -> & H).
  apply rmatch_seq_lit_inv in H as (r9 & -> & H).
  apply rmatch_seq_dots_inv in H as (id & r10 & -> & Hid & Hnl & H).
  apply rmatch_seq_lit_inv in H as (r11 & -> & H).
  apply rmatch_alternatives_inv in H as (kind & rest & Hkind & -> & H).
  injection H as <-.
  exists s, www, tld, channel, id, kind, rest. done.
Qed.

(** *** What is captured *)

Lemma rmatch_seq_lit l r s id k :
  rmatch (Seq (Lit l) r) (l +:+ s) id k = rmatch r s id k.
Proof. cbn [rmatch]. by rewrite strip_prefix_append. Qed.

Ltac list_cases H :=
  repeat (apply elem_of_cons in H as [->|H]); [..|by apply elem_of_nil in H].

(** Runs the matcher over the literal text at the head of the URL. *)
Ltac run_literals :=
  cbn [rmatch alternatives];
  repeat (
    match goal with
    | |- context [strip_prefix ?l ?s] =>
        let v := eval cbv in (strip_prefix l s) in
        change (strip_prefix l s) with v
    end;
    cbn [rmatch alternatives]).

(** The optional 's' and 'www.' and the two alternations are decided by the
    text that follows them in the pattern: with the right text in the URL,
    the match goes on with the rest of the pattern, and no other branch can
    succeed where that one fails. *)
Lemma rmatch_scheme o r s id k :
  o ∈ [""; "s"] →
  rmatch (Seq (Opt (Lit "s")) (Seq (Lit "://") r)) (o +:+ "://" +:+ s) id k
  = rmatch r s id k.
Proof.
  intros Ho. list_cases Ho; run_literals; by destruct (rmatch r s id k).
Qed.

Lemma rmatch_www o r s id k :
  o ∈ [""; "www."] →
  rmatch (Seq (Opt (Lit "www.")) (Seq (Lit "nowtv.") r))
    (o +:+ "nowtv." +:+ s) id k
  = rmatch r s id k.
Proof.
  intros Ho. list_cases Ho; run_literals; by destruct (rmatch r s id k).
Qed.

Lemma rmatch_tld tld r s id k :
  tld ∈ tlds →
  rmatch (Seq (alternatives "de" ["at"; "ch"]) (Seq (Lit "/") r))
    (tld +:+ "/" +:+ s) id k
  = rmatch r s id k.
Proof.
  intros Ht. unfold tlds in Ht.
  list_cases Ht; run_literals; by destruct (rmatch r s id k).
Qed.

Lemma rmatch_channel channel r s id k :
  channel ∈ channels →
  rmatch (Seq (alternatives "rtl" ["rtl2"; "rtlnitro"; "superrtl"; "ntv"; "vox"])
            (Seq (Lit "/") r))
    (channel +:+ "/" +:+ s) id k
  = rmatch r s id k.
Proof.
  intros Hc. unfold channels in Hc.
  list_cases Hc; run_literals; by destruct (rmatch r s id k).
Qed.

Lemma rmatch_seq_dots r s id k :
  rmatch (Seq IdDots r) s id k = lazy_dots (λ rest id, rmatch r rest id k) "" s.
Proof. done. Qed.

Lemma after_id_stops s id :
  rmatch (Seq (Lit "/") (alternatives "player" ["preview"])) s id
    (λ _ id, Some id)
  = if stops s then Some id else None.
Proof.
  cbn [rmatch alternatives]. unfold stops, starts_with.
  destruct s as [|d t]; [done|].
  change (strip_prefix "/" (String d t))
    with (if Ascii.eqb "/" d then Some t else None).
  change (strip_prefix "/player" (String d t))
    with (if Ascii.eqb "/" d then strip_prefix "player" t else None).
  change (strip_prefix "/preview" (String d t))
    with (if Ascii.eqb "/" d then strip_prefix "preview" t else None).
  destruct (Ascii.eqb "/" d); [|done].
  by destruct (strip_prefix "player" t), (strip_prefix "preview" t).
Qed.

Lemma stops_tail kind rest : kind ∈ kinds → stops ("/" +:+ kind +:+ rest) = true.
Proof. intros Hk. unfold kinds in Hk. by list_cases Hk. Qed.

Lemma stops_not_slash c s : Ascii.eqb c "/" = false → stops (String c s) = false.
Proof.
  intros Hc. unfold stops, starts_with.
  change (strip_prefix "/player" (String c s))
    with (if Ascii.eqb "/" c then strip_prefix "player" s else None).
  change (strip_prefix "/preview" (String c s))
    with (if Ascii.eqb "/" c then strip_prefix "preview" s else None).
  by rewrite Ascii.eqb_sym, Hc.
Qed.

Lemma starts_with_segment p seg c s :
  has_char c p = false →
  starts_with p (seg +:+ String c s) = starts_with p seg.
Proof.
  unfold starts_with. revert seg.
  induction p as [|a p IH]; intros seg Hp; [done|].
  simpl in Hp. apply orb_false_iff in Hp as [Ha Hp].
  destruct seg as [|d seg].
  - change (strip_prefix (String a p) ("" +:+ String c s))
      with (if Ascii.eqb a c then strip_prefix p s else None).
    by rewrite Ha.
  - change (strip_prefix (String a p) (String d seg +:+ String c s))
      with (if Ascii.eqb a d then strip_prefix p (seg +:+ String c s) else None).
    change (strip_prefix (String a p) (String d seg))
      with (if Ascii.eqb a d then strip_prefix p seg else None).
    destruct (Ascii.eqb a d); [by apply IH|done].
Qed.

Lemma stops_segment seg s :
  stops ("/" +:+ seg +:+ String "/" s)
  = starts_with "player" seg || starts_with "preview" seg.
Proof.
  change (stops ("/" +:+ seg +:+ String "/" s))
    with (starts_with "player" (seg +:+ String "/" s)
          || starts_with "preview" (seg +:+ String "/" s)).
  by rewrite !starts_with_segment.
Qed.

(** The rest of the pattern after the group, as a test on what is left. *)
Local Abbreviation stop_or_fail :=
  (λ (rest : string) (id : option string),
     if stops rest then Some id else None).

Lemma dots_from_word w taken s :
  is_segment w →
  dots_from stop_or_fail taken (w +:+ String "/" s)
  = dots_from stop_or_fail (taken +:+ w) (String "/" s).
Proof.
  revert taken. induction w as [|c w IH]; intros taken [Hslash Hnl].
  - by rewrite append_nil_r.
  - simpl in Hslash, Hnl.
    apply orb_false_iff in Hslash as [Hc Hslash].
    apply orb_false_iff in Hnl as [Hn Hnl].
    change (String c w +:+ String "/" s) with (String c (w +:+ String "/" s)).
    unfold dots_from at 1. rewrite (stops_not_slash _ _ Hc).
    cbn [lazy_dots]. rewrite Hn.
    fold (dots_from stop_or_fail (taken +:+ String c "") (w +:+ String "/" s)).
    rewrite IH by done. by rewrite append_assoc.
Qed.

Lemma slash_each_tail others kind rest :
  ∃ s, slash_each others +:+ "/" +:+ kind +:+ rest = String "/" s.
Proof. destruct others; by eexists. Qed.

Lemma dots_from_segments others taken kind rest :
  Forall is_segment others →
  Forall (λ seg, starts_with "player" seg = false ∧
                 starts_with "preview" seg = false) others →
  kind ∈ kinds →
  dots_from stop_or_fail taken (slash_each others +:+ "/" +:+ kind +:+ rest)
  = Some (Some (taken +:+ slash_each others)).
Proof.
  intros Hsegs Hclean Hkind. revert taken.
  induction others as [|seg others IH]; intros taken.
  - change (slash_each [] +:+ "/" +:+ kind +:+ rest)
      with ("/" +:+ kind +:+ rest).
    unfold dots_from. rewrite (stops_tail _ _ Hkind).
    change (slash_each []) with "". by rewrite append_nil_r.
  - apply Forall_cons in Hsegs as [Hseg Hsegs].
    apply Forall_cons in Hclean as [[Hplayer Hpreview] Hclean].
    destruct (slash_each_tail others kind rest) as [s Hs].
    change (slash_each (seg :: others)) with ("/" +:+ seg +:+ slash_each others).
    rewrite !append_assoc, Hs.
    unfold dots_from at 1.
    rewrite stops_segment, Hplayer, Hpreview.
    change ("/" +:+ seg +:+ String "/" s) with (String "/" (seg +:+ String "/" s)).
    cbn [lazy_dots orb].
    change (Ascii.eqb "/" newline) with false. cbv iota.
    fold (dots_from stop_or_fail (taken +:+ "/") (seg +:+ String "/" s)).
    rewrite (dots_from_word _ _ _ Hseg), <- Hs, (IH Hsegs Hclean).
    by rewrite !append_assoc.
Qed.

(** X12. What the pattern captures from a well-formed URL: for a slug of
    one or more segments, the first one not empty and none of the others
    starting with 'player' or 'preview', the whole slug, whatever follows
    the 'player' or 'preview' that ends it. The group is lazy: it ends at
    the first '/player' or '/preview' it meets, so a later segment that
    starts with either would cut the slug short. *)
Theorem valid_url_captures_slug
    (s www tld channel first kind rest : string) (others : list string) :
  s ∈ [""; "s"] → www ∈ [""; "www."] →
  tld ∈ tlds → channel ∈ channels → kind ∈ kinds →
  first ≠ "" →
  Forall is_segment (first :: others) →
  Forall (λ seg, starts_with "player" seg = false ∧
                 starts_with "preview" seg = false) others →
  valid_url_match
    ("http" +:+ s +:+ "://" +:+ www +:+ "nowtv." +:+ tld +:+ "/" +:+
     channel +:+ "/" +:+ join "/" (first :: others) +:+ "/" +:+ kind +:+ rest)
  = Some (Some (join "/" (first :: others))).
Proof.
  intros Hs Hwww Htld Hchannel Hkind Hfirst Hsegs Hclean.
  unfold valid_url_match, _VALID_URL.
  rewrite rmatch_seq_lit, (rmatch_scheme _ _ _ _ _ Hs).
  rewrite (rmatch_www _ _ _ _ _ Hwww), (rmatch_tld _ _ _ _ _ Htld).
  rewrite (rmatch_channel _ _ _ _ _ Hchannel), rmatch_seq_dots.
  rewrite (lazy_dots_ext _ stop_or_fail) by (intros; apply after_id_stops).
  rewrite join_slash_each, append_assoc.
  apply Forall_cons in Hsegs as [[Hslash Hnl] Hsegs].
  destruct first as [|c first]; [done|].
  simpl in Hslash, Hnl.
  apply orb_false_iff in Hslash as [Hc Hslash].
  apply orb_false_iff in Hnl as [Hn Hnl].
  destruct (slash_each_tail others kind rest) as [t Ht]. rewrite Ht.
  change (String c first +:+ String "/" t) with (String c (first +:+ String "/" t)).
  cbn [lazy_dots]. rewrite Hn.
  change ("" +:+ String c "") with (String c "").
  fold (dots_from stop_or_fail (String c "") (first +:+ String "/" t)).
  rewrite (dots_from_word first (String c "") t) by done.
  rewrite <- Ht. by rewrite (dots_from_segments _ _ _ _ Hsegs Hclean Hkind).
Qed.

(** ** Worked examples for the further properties *)

Local Abbreviation sample_extract_info display_id info :=
  (extract_info sample_compat_str sample_determine_ext
     sample_parse_iso8601 sample_parse_duration sample_sort_formats
     display_id info).

Lemma sample_determine_ext_error v e :
  sample_determine_ext v = Err e → is_expected e = false.
Proof. destruct v; simpl; try done; by intros [= <-]. Qed.

Lemma sample_sort_formats_error l e :
  sample_sort_formats l = Err e → is_expected e = false.
Proof. done. Qed.

Lemma expected_errors_come_from_the_gate_witness :
  let m := <["free" := JBool false]> (sample_info (Some (JObj ∅))) in
  sample_extract_info sample_display_id (JObj m) =
    Err (ExtractorError "Video 203519 is not available for free" true) ∧
  ∃ files, m !! "files" = Some files ∧ truthy files = false.
Proof.
  intros m.
  assert (sample_extract_info sample_display_id (JObj m) =
          Err (ExtractorError "Video 203519 is not available for free" true))
    as Herr by (by vm_compute).
  split; [exact Herr|].
  destruct (expected_errors_come_from_the_gate
              sample_compat_str sample_determine_ext
              sample_parse_iso8601 sample_parse_duration sample_sort_formats
              sample_display_id (JObj m) _
              sample_determine_ext_error sample_sort_formats_error
              Herr eq_refl)
    as (m' & id & files & Heq & _ & Hfiles & Hfalsy & _).
  injection Heq as <-. by exists files.
Defined.

Lemma empty_files_outcome_witness :
  let m := <["free" := JNull]> (sample_info (Some (JStr ""))) in
  m !! "free" = Some JNull ∧ truthy (JStr "") = false ∧
  sample_extract_info sample_display_id (JObj m) =
    Err (ExtractorError "Video 203519 is not available for free" true).
Proof.
  intros m. split; [by vm_compute|]. split; [done|].
  rewrite (empty_files_outcome
             sample_compat_str sample_determine_ext
             sample_parse_iso8601 sample_parse_duration sample_sort_formats
             sample_display_id m (JInt 203519) (JStr ""));
    by vm_compute.
Defined.

Lemma flags_ignored_when_files_listed_witness :
  let m := sample_info (Some sample_files) in
  sample_extract_info sample_display_id (JObj (<["geoblocked" := JBool true]> m))
    = sample_extract_info sample_display_id (JObj m) ∧
  ∃ r, sample_extract_info sample_display_id (JObj m) = Ok r.
Proof.
  intros m. split.
  - apply (flags_ignored_when_files_listed
             sample_compat_str sample_determine_ext
             sample_parse_iso8601 sample_parse_duration sample_sort_formats
             sample_display_id m sample_files);
      [by left|by vm_compute|by vm_compute].
  - eexists. by vm_compute.
Defined.

Lemma extract_info_returns_witness :
  ∃ r, sample_extract_info sample_display_id
         (JObj (sample_info (Some sample_files))) = Ok r ∧
       Info.id r = "203519" ∧ Info.duration r = Some 2786%Z.
Proof.
  destruct (extract_info_returns
              sample_compat_str sample_determine_ext
              sample_parse_iso8601 sample_parse_duration sample_sort_formats
              sample_display_id (sample_info (Some sample_files))
              {[ "items" := JArr sample_items ]}
              (JInt 203519) (JStr "Die neuen Bauern und eine Hochzeit")
              sample_items)
    as (built & Hbuilt & Hresult);
    [by vm_compute|by vm_compute|by vm_compute|by vm_compute
    |apply sample_items_well_formed|right; eexists; by vm_compute|].
  destruct (Hresult (merge_sort tbr_le built) eq_refl)
    as (description & thumbnail & _ & _ & Hr).
  eexists. split; [exact Hr|]. split; by vm_compute.
Defined.

Lemma result_provenance_witness :
  ∃ r, sample_extract_info sample_display_id
         (JObj (sample_info (Some sample_files))) = Ok r ∧
       Info.title r = JStr "Die neuen Bauern und eine Hochzeit" ∧
       Info.display_id r = sample_display_id.
Proof.
  assert (∃ r, sample_extract_info sample_display_id
                 (JObj (sample_info (Some sample_files))) = Ok r)
    as [r Hr] by (eexists; by vm_compute).
  exists r. split; [exact Hr|].
  destruct (result_provenance
              sample_compat_str sample_determine_ext
              sample_parse_iso8601 sample_parse_duration sample_sort_formats
              sample_display_id _ r Hr)
    as (m & id & title & files & Heq & _ & _ & Hd & Htitle & Ht & _).
  injection Heq as <-. split; [|exact Hd].
  rewrite Ht. vm_compute in Htitle. by injection Htitle as <-.
Defined.

Lemma first_bad_descriptor_decides_witness :
  let good := JObj (sample_descriptor "/abr/videos/bauer/1500/folge.f4v" (JInt 1500)) in
  let fm : gmap string json := {[ "items" := JArr [good; JNull; good] ]} in
  let m := sample_info (Some (JObj fm)) in
  sample_extract_info sample_display_id (JObj m) = Err TypeError.
Proof.
  intros good fm m.
  destruct (first_bad_descriptor_decides
              sample_compat_str sample_determine_ext
              sample_parse_iso8601 sample_parse_duration sample_sort_formats
              sample_display_id m fm (JInt 203519) [good] [good] JNull)
    as (_ & Hnot & _);
    [by vm_compute|by vm_compute|by vm_compute| |by apply Hnot].
  constructor; [|constructor].
  exists (sample_descriptor "/abr/videos/bauer/1500/folge.f4v" (JInt 1500)),
    "/abr/videos/bauer/1500/folge.f4v", "f4v". by vm_compute.
Defined.

Lemma formats_trace_back_to_f4v_descriptors_witness :
  ∃ r f, sample_extract_info sample_display_id
           (JObj (sample_info (Some sample_files))) = Ok r ∧
         f ∈ Info.formats r ∧
         Fmt.ext f = "flv" ∧ Fmt.url f = "rtmpe://fms.rtl.de".
Proof.
  assert (∃ r f, sample_extract_info sample_display_id
                   (JObj (sample_info (Some sample_files))) = Ok r ∧
                 f ∈ Info.formats r)
    as (r & f & Hr & Hf).
  { eexists _, _. split; [by vm_compute|]. simpl. apply elem_of_cons. by left. }
  exists r, f. split; [exact Hr|]. split; [exact Hf|].
  destruct (formats_trace_back_to_f4v_descriptors
              sample_compat_str sample_determine_ext
              sample_parse_iso8601 sample_parse_duration sample_sort_formats
              sample_sort_formats_perm
              sample_display_id (sample_info (Some sample_files))
              {[ "items" := JArr sample_items ]} sample_items r f)
    as (Hurl & Hext & _); [by vm_compute|by vm_compute|exact Hr|exact Hf|].
  by split.
Defined.

Lemma thumbnail_from_format_witness :
  (∃ r, sample_extract_info sample_display_id
          (JObj (sample_info (Some sample_files))) = Ok r ∧
        Info.thumbnail r = JStr "http://img/logo.jpg") ∧
  fails (sample_extract_info sample_display_id
           (JObj (<["format" := JNull]> (sample_info (Some sample_files))))).
Proof.
  split.
  - assert (∃ r, sample_extract_info sample_display_id
                   (JObj (sample_info (Some sample_files))) = Ok r)
      as [r Hr] by (eexists; by vm_compute).
    exists r. split; [exact Hr|].
    destruct (thumbnail_from_format
                sample_compat_str sample_determine_ext
                sample_parse_iso8601 sample_parse_duration sample_sort_formats
                sample_display_id (sample_info (Some sample_files)))
      as (Hok & _).
    destruct (Hok r Hr) as [[Hnone _]|(f & Hf & ->)]; [by vm_compute in Hnone|].
    vm_compute in Hf. injection Hf as <-. by vm_compute.
  - destruct (thumbnail_from_format
                sample_compat_str sample_determine_ext
                sample_parse_iso8601 sample_parse_duration sample_sort_formats
                sample_display_id
                (<["format" := JNull]> (sample_info (Some sample_files))))
      as (_ & Hbad).
    by destruct (Hbad JNull); [by vm_compute|done|].
Defined.

Lemma items_must_be_a_list_witness :
  let fm : gmap string json := {[ "items" := JInt 5 ]} in
  sample_extract_info sample_display_id (JObj (sample_info (Some (JObj fm))))
    = Err TypeError.
Proof.
  intros fm.
  by apply (items_must_be_a_list
              sample_compat_str sample_determine_ext
              sample_parse_iso8601 sample_parse_duration sample_sort_formats
              sample_display_id (sample_info (Some (JObj fm))) fm
              (JInt 203519) (JInt 5));
    try by vm_compute.
Defined.


Lemma valid_url_shape_witness :
  valid_url_match sample_url = Some (Some sample_display_id) ∧
  sample_display_id ≠ "" ∧ has_char newline sample_display_id = false.
Proof.
  assert (valid_url_match sample_url = Some (Some sample_display_id))
    as Hm by (by vm_compute).
  split; [exact Hm|].
  destruct (valid_url_shape sample_url (Some sample_display_id) Hm)
    as (s & www & tld & channel & id & kind & rest
        & Hid & _ & _ & _ & _ & _ & _ & Hne & Hnl).
  injection Hid as ->. by split.
Defined.

Lemma valid_url_captures_slug_witness :
  valid_url_match
    "http://www.nowtv.de/rtl2/echtzeit/list/aktuell/schnelles-geld-am-ende-der-welt/player"
    = Some (Some "echtzeit/list/aktuell/schnelles-geld-am-ende-der-welt") ∧
  valid_url_match
    "http://www.nowtv.at/rtl/bauer-sucht-frau/die-neuen-bauern-und-eine-hochzeit/preview?return=/rtl/bauer-sucht-frau/die-neuen-bauern-und-eine-hochzeit"
    = Some (Some "bauer-sucht-frau/die-neuen-bauern-und-eine-hochzeit") ∧
  ∃ r, _real_extract valid_url_id sample_compat_str sample_determine_ext
         sample_parse_iso8601 sample_parse_duration sample_sort_formats
         (sample_net (JObj (sample_info (Some sample_files))))
         "http://www.nowtv.de/rtl2/echtzeit/list/aktuell/schnelles-geld-am-ende-der-welt/player"
       = Ok r ∧
       Info.display_id r = "echtzeit/schnelles-geld-am-ende-der-welt".
Proof.
  split; [|split; [|eexists; split; by vm_compute]].
  - apply (valid_url_captures_slug "" "www." "de" "rtl2" "echtzeit" "player" ""
             ["list"; "aktuell"; "schnelles-geld-am-ende-der-welt"]);
      try set_solver; repeat (constructor; [by vm_compute|]); constructor.
  - apply (valid_url_captures_slug "" "www." "at" "rtl" "bauer-sucht-frau"
             "preview"
             "?return=/rtl/bauer-sucht-frau/die-neuen-bauern-und-eine-hochzeit"
             ["die-neuen-bauern-und-eine-hochzeit"]);
      try set_solver; repeat (constructor; [by vm_compute|]); constructor.
Defined.
